(** * Hotel search pipeline (api/hotelApi.js): filter, sort, city codes,
      pagination, the single-slot search cache and the search orchestrator.

    Modelling conventions.
    - A JavaScript number is a rational [Q]: every finite double is a
      rational, and the program only compares numbers, tests them for
      truthiness and takes the sign of a difference, all of which are exact.
      NaN and the infinities are outside the model.  Page numbers, array
      indices and clock readings (milliseconds) are integers [Z].
    - A string is a [string] of ASCII characters; [toLowerCase],
      [toUpperCase] and [trim] are the ASCII restrictions of the built-ins.
    - An optional property is an [option]: [None] is [undefined].
    - Module-level variables ([amadeusToken], [tokenExpiresAt],
      [searchCache]) are fields of an explicit [State]; everything the
      program reads from the outside during one call of [searchHotels]
      (clock, HTTP responses, random draws) is a field of an [Oracle]. *)

From Stdlib Require Import ZArith QArith List String Ascii Bool Lia.
From Stdlib Require Import Permutation Sorted Lqa.
Import ListNotations.

Local Open Scope string_scope.
Local Open Scope Z_scope.

(* ================================================================== *)
(** ** Strings *)

Module Str.

Definition lowerChar (c : ascii) : ascii :=
  let n := nat_of_ascii c in
  if andb (Nat.leb 65 n) (Nat.leb n 90) then ascii_of_nat (n + 32) else c.

Definition upperChar (c : ascii) : ascii :=
  let n := nat_of_ascii c in
  if andb (Nat.leb 97 n) (Nat.leb n 122) then ascii_of_nat (n - 32) else c.

Fixpoint map (f : ascii -> ascii) (s : string) : string :=
  match s with
  | EmptyString => EmptyString
  | String c s' => String (f c) (map f s')
  end.

(** [String.prototype.toLowerCase] and [toUpperCase]. *)
Definition toLowerCase : string -> string := map lowerChar.
Definition toUpperCase : string -> string := map upperChar.

(** White space removed by [String.prototype.trim]: TAB, LF, VT, FF, CR
    and SPACE. *)
Definition isWhite (c : ascii) : bool :=
  let n := nat_of_ascii c in
  orb (andb (Nat.leb 9 n) (Nat.leb n 13)) (Nat.eqb n 32).

Fixpoint trimStart (s : string) : string :=
  match s with
  | EmptyString => EmptyString
  | String c s' => if isWhite c then trimStart s' else s
  end.

Fixpoint rev_append (s acc : string) : string :=
  match s with
  | EmptyString => acc
  | String c s' => rev_append s' (String c acc)
  end.

Definition rev (s : string) : string := rev_append s EmptyString.

Definition trimEnd (s : string) : string := rev (trimStart (rev s)).

Definition trim (s : string) : string := trimEnd (trimStart s).

(** [s.startsWith(p)]. *)
Definition startsWith (s p : string) : bool := String.prefix p s.

(** [s.includes(sub)]: [sub] occurs in [s] at some position. *)
Fixpoint includes (s sub : string) : bool :=
  orb (String.prefix sub s)
      (match s with
       | EmptyString => false
       | String _ s' => includes s' sub
       end).

(** A string is truthy iff it is not empty. *)
Definition truthy (s : string) : bool := negb (s =? "")%string.

(** [a || b] on an optional string with a string default. *)
Definition orElse (o : option string) (d : string) : string :=
  match o with
  | Some s => if truthy s then s else d
  | None => d
  end.

Definition isLetter (c : ascii) : bool :=
  let n := nat_of_ascii c in
  orb (andb (Nat.leb 65 n) (Nat.leb n 90)) (andb (Nat.leb 97 n) (Nat.leb n 122)).

End Str.

(* ================================================================== *)
(** ** Numbers *)

Definition number := Q.

Module Num.

(** A number is truthy iff it is not zero. *)
Definition truthy (q : number) : bool := negb (Qeq_bool q 0).

(** [a < b] and [a > b]. *)
Definition ltb (a b : number) : bool :=
  match (a ?= b)%Q with Lt => true | _ => false end.

Definition gtb (a b : number) : bool := ltb b a.

(** Optional numbers as [JSON.stringify] prints them: equal texts iff
    absent on both sides or equal values. *)
Definition opt_eqb (a b : option number) : bool :=
  match a, b with
  | None, None => true
  | Some x, Some y => Qeq_bool x y
  | _, _ => false
  end.

End Num.

(* ================================================================== *)
(** ** Data model *)

Record Location := {
  city : string;
  country : string
}.

(** The fields of a hotel the request layer reads ([description],
    [reviewCount], [currency], [images], [roomType] and the two feature
    flags are only displayed). *)
Record Hotel := {
  id : string;
  name : string;
  rating : number;
  userRating : number;
  pricePerNight : number;
  location : Location;
  amenities : list string
}.

(** [f_location], [f_rating] and [f_amenities] are the properties
    [location], [rating] and [amenities] of a filters object. *)
Record SearchFilters := {
  f_location : option string;
  checkIn : option string;
  checkOut : option string;
  guests : option number;
  minPrice : option number;
  maxPrice : option number;
  f_rating : option number;
  f_amenities : option (list string);
  sortBy : option string
}.

Record SearchResult := {
  hotels : list Hotel;
  total : Z;
  page : Z;
  hasMore : bool
}.

(** utils/constants.js *)
Definition HOTELS_PER_PAGE : Z := 12.

(* ================================================================== *)
(** ** Arrays *)

(** [Array.prototype.slice(start, end)], with its treatment of negative
    and out-of-range indices. *)
Definition slice {A : Type} (l : list A) (start end_ : Z) : list A :=
  let len := Z.of_nat (List.length l) in
  let k := if start <? 0 then Z.max (len + start) 0 else Z.min start len in
  let final := if end_ <? 0 then Z.max (len + end_) 0 else Z.min end_ len in
  firstn (Z.to_nat (final - k)) (skipn (Z.to_nat k) l).

(** [arr.includes(x)] on an array of strings. *)
Definition arr_includes (l : list string) (x : string) : bool :=
  existsb (fun y => (y =? x)%string) l.

(** [Array.prototype.sort(comparefn)].  The built-in is required to be
    stable, and for a consistent comparator the result of a stable sort is
    determined by the input, so it is modelled by stable insertion: an
    element moves right only past elements it is strictly greater than. *)
Section Sort.
Context {A : Type} (comparefn : A -> A -> number).

Fixpoint insert (x : A) (l : list A) : list A :=
  match l with
  | [] => [x]
  | y :: l' =>
      if Num.gtb (comparefn x y) 0%Q then y :: insert x l' else x :: l
  end.

Fixpoint sort (l : list A) : list A :=
  match l with
  | [] => []
  | x :: l' => insert x (sort l')
  end.

End Sort.

(* ================================================================== *)
(** ** Filter/Sort engine *)

(** The callback of [filterHotels]: each [if (...) return false] of the
    source is one conjunct. *)
Definition keepHotel (filters : SearchFilters) (hotel : Hotel) : bool :=
  (* Location filter (case-insensitive partial match) *)
  (match f_location filters with
   | Some loc =>
       if Str.truthy loc then
         let searchTerm := Str.trim (Str.toLowerCase loc) in
         let cityMatch :=
           Str.includes (Str.toLowerCase (city (location hotel))) searchTerm in
         let countryMatch :=
           Str.includes (Str.toLowerCase (country (location hotel))) searchTerm in
         negb (negb cityMatch && negb countryMatch)
       else true
   | None => true
   end)
  (* Price range filter *)
  && (match minPrice filters with
      | Some m => negb (Num.truthy m && Num.ltb (pricePerNight hotel) m)
      | None => true
      end)
  && (match maxPrice filters with
      | Some m => negb (Num.truthy m && Num.gtb (pricePerNight hotel) m)
      | None => true
      end)
  (* Star rating filter *)
  && (match f_rating filters with
      | Some r => negb (Num.truthy r && Num.ltb (rating hotel) r)
      | None => true
      end)
  (* Amenities filter (hotel must have all required amenities) *)
  && (match f_amenities filters with
      | Some req =>
          if (0 <? Z.of_nat (List.length req)) then
            forallb (fun amenity => arr_includes (amenities hotel) amenity) req
          else true
      | None => true
      end).

Definition filterHotels (hotels : list Hotel) (filters : SearchFilters)
  : list Hotel :=
  filter (keepHotel filters) hotels.

(** The four comparators of [sortHotels].  [localeCompare] is the
    built-in collation of the host, a parameter of the model. *)
Definition by_price_asc (a b : Hotel) : number :=
  (pricePerNight a - pricePerNight b)%Q.
Definition by_price_desc (a b : Hotel) : number :=
  (pricePerNight b - pricePerNight a)%Q.
Definition by_rating_desc (a b : Hotel) : number :=
  (userRating b - userRating a)%Q.
Definition by_name_asc (localeCompare : string -> string -> number)
  (a b : Hotel) : number :=
  localeCompare (name a) (name b).

(** [sortHotels(hotels, sortBy = "price_asc")]: the default parameter
    replaces an [undefined] argument before the [switch]. *)
Definition sortHotels (localeCompare : string -> string -> number)
  (hotels : list Hotel) (sortBy : option string) : list Hotel :=
  let sortBy := match sortBy with Some s => s | None => "price_asc" end in
  let sorted := hotels in
  if (sortBy =? "price_asc")%string then sort by_price_asc sorted
  else if (sortBy =? "price_desc")%string then sort by_price_desc sorted
  else if (sortBy =? "rating_desc")%string then sort by_rating_desc sorted
  else if (sortBy =? "name_asc")%string then
    sort (by_name_asc localeCompare) sorted
  else sorted.

(* ================================================================== *)
(** ** Location resolver *)

(** [CITY_CODES], in the order of the object literal (the order of
    [Object.entries]). *)
Definition CITY_CODES : list (string * string) :=
  [ ("new york", "NYC"); ("nyc", "NYC"); ("paris", "PAR"); ("london", "LON");
    ("tokyo", "TYO"); ("dubai", "DXB"); ("bangkok", "BKK");
    ("singapore", "SIN"); ("los angeles", "LAX"); ("miami", "MIA");
    ("rome", "ROM"); ("barcelona", "BCN"); ("amsterdam", "AMS");
    ("delhi", "DEL"); ("mumbai", "BOM") ].

(** [CITY_CODES] is an object literal, so a property read [CITY_CODES[k]]
    that finds no own property continues in [Object.prototype]; these are
    its property names (each holds a function or an object, never a
    string). *)
Definition Object_prototype : list string :=
  [ "constructor"; "__defineGetter__"; "__defineSetter__"; "hasOwnProperty";
    "__lookupGetter__"; "__lookupSetter__"; "isPrototypeOf";
    "propertyIsEnumerable"; "toString"; "valueOf"; "__proto__";
    "toLocaleString" ].

(** What [getCityCode] can return besides [null]: a code, or a member
    inherited from [Object.prototype] (a truthy value that is no string). *)
Inductive CityCode :=
| Code (c : string)
| Inherited (member : string).

Fixpoint own_property (table : list (string * string)) (k : string)
  : option string :=
  match table with
  | [] => None
  | (key, v) :: rest => if (key =? k)%string then Some v else own_property rest k
  end.

(** The property read [CITY_CODES[k]]. *)
Definition get_CITY_CODES (k : string) : option CityCode :=
  match own_property CITY_CODES k with
  | Some v => Some (Code v)
  | None => if arr_includes Object_prototype k then Some (Inherited k) else None
  end.

(** [/^[a-z]{3}$/i.test(s)] *)
Definition isIataCode (s : string) : bool :=
  match s with
  | String a (String b (String c EmptyString)) =>
      Str.isLetter a && Str.isLetter b && Str.isLetter c
  | _ => false
  end.

(** [Object.entries(CITY_CODES).find(([city]) => ...)] of the partial match. *)
Definition partialMatch (normalized : string) : option (string * string) :=
  find (fun entry =>
          Str.startsWith (fst entry) normalized
          || Str.startsWith normalized (fst entry)) CITY_CODES.

(** [getCityCode(location)]; [None] is [null]. *)
Definition getCityCode (location : option string) : option CityCode :=
  match location with
  | None => Some (Code "NYC")
  | Some location =>
      if negb (Str.truthy location)
         || (Z.of_nat (String.length (Str.trim location)) =? 0)
      then Some (Code "NYC")
      else
        let normalized := Str.trim (Str.toLowerCase location) in
        if Z.of_nat (String.length normalized) <? 3 then
          let exactMatch :=
            find (fun entry => Str.startsWith (fst entry) normalized)
                 CITY_CODES in
          match exactMatch with Some _ => None | None => None end
        else if isIataCode normalized then
          Some (Code (Str.toUpperCase normalized))
        else
          match get_CITY_CODES normalized with
          | Some knownCode => Some knownCode
          | None =>
              match partialMatch normalized with
              | Some entry => Some (Code (snd entry))
              | None => None
              end
          end
  end.

(* ================================================================== *)
(** ** Host environment *)

(** What the module imports or reads from its host: the three [VITE_]
    build variables, the static catalog [mockHotels] of api/mockData.js
    and the collation behind [String.prototype.localeCompare]. *)
Record Env := {
  VITE_API_MODE : option string;
  VITE_AMADEUS_CLIENT_ID : option string;
  VITE_AMADEUS_CLIENT_SECRET : option string;
  mockHotels : list Hotel;
  localeCompare : string -> string -> number
}.

Definition opt_truthy (o : option string) : bool :=
  match o with Some s => Str.truthy s | None => false end.

Definition shouldUseMockData (env : Env) : bool :=
  let apiMode := VITE_API_MODE env in
  let hasCredentials :=
    opt_truthy (VITE_AMADEUS_CLIENT_ID env)
    && opt_truthy (VITE_AMADEUS_CLIENT_SECRET env) in
  negb (match apiMode with Some m => (m =? "live")%string | None => false end)
  || negb hasCredentials.

(* ================================================================== *)
(** ** Cache store *)

(** The object [getCacheKey] passes to [JSON.stringify].  The text is an
    injective rendering of these eight properties (an [undefined] property
    is left out, a number is printed by value), so two keys are [===] as
    strings exactly when [key_eqb] holds of the objects. *)
Record CacheKey := {
  k_location : string;
  k_checkIn : string;
  k_checkOut : string;
  k_minPrice : option number;
  k_maxPrice : option number;
  k_rating : option number;
  k_amenities : list string;
  k_sortBy : string
}.

Definition getCacheKey (filters : SearchFilters) : CacheKey :=
  {| k_location := Str.orElse (f_location filters) "";
     k_checkIn := Str.orElse (checkIn filters) "";
     k_checkOut := Str.orElse (checkOut filters) "";
     k_minPrice := minPrice filters;
     k_maxPrice := maxPrice filters;
     k_rating := f_rating filters;
     k_amenities := match f_amenities filters with Some l => l | None => [] end;
     k_sortBy := Str.orElse (sortBy filters) "price_asc" |}.

Fixpoint strings_eqb (a b : list string) : bool :=
  match a, b with
  | [], [] => true
  | x :: a', y :: b' => (x =? y)%string && strings_eqb a' b'
  | _, _ => false
  end.

Definition key_eqb (a b : CacheKey) : bool :=
  (k_location a =? k_location b)%string
  && (k_checkIn a =? k_checkIn b)%string
  && (k_checkOut a =? k_checkOut b)%string
  && Num.opt_eqb (k_minPrice a) (k_minPrice b)
  && Num.opt_eqb (k_maxPrice a) (k_maxPrice b)
  && Num.opt_eqb (k_rating a) (k_rating b)
  && strings_eqb (k_amenities a) (k_amenities b)
  && (k_sortBy a =? k_sortBy b)%string.

Record SearchCache := {
  key : option CacheKey;     (* null until the first write *)
  c_hotels : list Hotel;     (* searchCache.hotels *)
  timestamp : Z;
  ttl : Z
}.

Definition emptyCache : SearchCache :=
  {| key := None; c_hotels := []; timestamp := 0; ttl := 5 * 60 * 1000 |}.

(* ================================================================== *)
(** ** Module state, outside world, and the monad of an async function *)

(** Records of the two remote responses.  [searchHotels] itself reads only
    the identities; the other properties are consumed by
    [mapAmadeusHotel]. *)
Record AmadeusHotel := {
  hotelId : option string;
  ah_name : option string;
  ah_rating : option string
}.

Record AmadeusOffer := {
  offer_hotelId : option string;      (* offer.hotel?.hotelId *)
  offer_total : option string;        (* offers[0].price.total *)
  offer_properties : list (string * bool)
    (* the names of the own properties of the offer object, each with the
       truthiness of the value it holds *)
}.

(** What a read [offersMap[hotelId]] can yield besides a falsy value.
    [offersMap] is an object literal, so a read that finds no own property
    goes on along the prototype chain. *)
Inductive OfferData :=
| AnOffer (offer : AmadeusOffer)
    (* an offer: stored under the key, or the prototype read as __proto__ *)
| OfferMember (offer : AmadeusOffer) (k : string)
    (* the value of property [k] of an offer that has become the prototype *)
| ObjectMember (k : string).
    (* member [k] of Object.prototype; for __proto__, Object.prototype *)

(** The requests the module sends with [fetch], with the parameters that
    vary.  A date of [None] is the default the code computes from the
    clock (tomorrow, the day after). *)
Inductive Request :=
| TokenRequest
| HotelsByCity (cityCode : CityCode)
| HotelOffers (hotelIds : list string) (checkInDate checkOutDate : option string).

(** The response a [fetch] resolves to.  Where the outside world supplies
    one, [None] stands for a [fetch] that rejects (no response at all). *)
Inductive Response (A : Type) :=
| NotOk (text_ok : bool)      (* !response.ok; does response.text() resolve *)
| BadBody                     (* response.ok, but reading the JSON throws *)
| Ok (body : A).

Arguments NotOk {A} text_ok.
Arguments BadBody {A}.
Arguments Ok {A} body.

Inductive Error :=
| AuthFailed                  (* new Error("Failed to authenticate ...") *)
| FetchError (r : Request)    (* rejection of fetch() *)
| BodyError (r : Request).    (* rejection of text()/json(), TypeError on the body *)

(** The module-level variables, and two logs kept for instrumentation:
    every request sent and every error raised, latest first. *)
Record State := {
  amadeusToken : option string;
  tokenExpiresAt : Z;
  searchCache : SearchCache;
  requests : list Request;
  thrown : list Error
}.

Definition initialState : State :=
  {| amadeusToken := None; tokenExpiresAt := 0; searchCache := emptyCache;
     requests := []; thrown := [] |}.

(** One run of [getAmadeusToken]: the clock at the validity test, the
    response of the token endpoint ([access_token], [expires_in]), the
    clock when the expiry is computed. *)
Record TokenCall := {
  tc_now : Z;
  tc_response : option (Response (option string * Z));
  tc_now_set : Z
}.

(** Everything one call of [searchHotels] reads from outside, by place of
    use. *)
Record Oracle := {
  now_cache : Z;                              (* Date.now() in isCacheValid *)
  auth1 : TokenCall;                          (* getAmadeusToken in searchHotels *)
  catalog : option (Response (list AmadeusHotel));
                                              (* body: data.data || [] *)
  auth2 : TokenCall;                          (* getAmadeusToken in fetchHotelOffers *)
  offers : option (Response (list AmadeusOffer));
                                              (* body: data.data || [] *)
  mapAmadeusHotel : AmadeusHotel -> nat -> option OfferData -> Hotel;
                                              (* with this call's Math.random draws *)
  now_write : Z                               (* Date.now() at the cache write *)
}.

Inductive Outcome (A : Type) :=
| Return (a : A)
| Threw (e : Error).

Arguments Return {A} a.
Arguments Threw {A} e.

Definition Async (A : Type) : Type := State -> Outcome A * State.

Definition ret {A} (a : A) : Async A := fun st => (Return a, st).

Definition bind {A B} (m : Async A) (k : A -> Async B) : Async B :=
  fun st =>
    match m st with
    | (Return a, st') => k a st'
    | (Threw e, st') => (Threw e, st')
    end.

Definition throw {A} (e : Error) : Async A :=
  fun st =>
    (Threw e,
     {| amadeusToken := amadeusToken st; tokenExpiresAt := tokenExpiresAt st;
        searchCache := searchCache st; requests := requests st;
        thrown := e :: thrown st |}).

Definition try_catch {A} (m : Async A) (handler : Error -> Async A) : Async A :=
  fun st =>
    match m st with
    | (Return a, st') => (Return a, st')
    | (Threw e, st') => handler e st'
    end.

Definition get : Async State := fun st => (Return st, st).

Notation "x <- m ;; k" := (bind m (fun x => k))
  (at level 61, m at next level, right associativity).
Notation "m ;;; k" := (bind m (fun _ => k))
  (at level 61, right associativity).

(** [await fetch(...)]: the request is sent; a rejection is thrown. *)
Definition fetch {A} (r : Request) (response : option (Response A))
  : Async (Response A) :=
  fun st =>
    let st' :=
      {| amadeusToken := amadeusToken st; tokenExpiresAt := tokenExpiresAt st;
         searchCache := searchCache st; requests := r :: requests st;
         thrown := thrown st |} in
    match response with
    | None => throw (FetchError r) st'
    | Some response => (Return response, st')
    end.

Definition set_token (t : option string) (expires : Z) : Async unit :=
  fun st =>
    (Return tt,
     {| amadeusToken := t; tokenExpiresAt := expires;
        searchCache := searchCache st; requests := requests st;
        thrown := thrown st |}).

Definition set_searchCache (c : SearchCache) : Async unit :=
  fun st =>
    (Return tt,
     {| amadeusToken := amadeusToken st; tokenExpiresAt := tokenExpiresAt st;
        searchCache := c; requests := requests st; thrown := thrown st |}).

(** [clearSearchCache()] *)
Definition clearSearchCache (st : State) : State :=
  {| amadeusToken := amadeusToken st; tokenExpiresAt := tokenExpiresAt st;
     searchCache := emptyCache; requests := requests st; thrown := thrown st |}.

(** [isCacheValid(filters)] with the clock reading [now]. *)
Definition isCacheValid (now : Z) (filters : SearchFilters) (st : State) : bool :=
  let key_ := getCacheKey filters in
  (match key (searchCache st) with
   | Some k => key_eqb k key_
   | None => false
   end)
  && (0 <? Z.of_nat (List.length (c_hotels (searchCache st))))
  && (now - timestamp (searchCache st) <? ttl (searchCache st)).

(* ================================================================== *)
(** ** Remote fetch adapter *)

(** [getAmadeusToken()] *)
Definition getAmadeusToken (tc : TokenCall) : Async (option string) :=
  st <- get ;;
  if opt_truthy (amadeusToken st) && (tc_now tc <? tokenExpiresAt st) then
    ret (amadeusToken st)
  else
    response <- fetch TokenRequest (tc_response tc) ;;
    match response with
    | NotOk text_ok =>
        if text_ok then throw AuthFailed else throw (BodyError TokenRequest)
    | BadBody => throw (BodyError TokenRequest)
    | Ok (access_token, expires_in) =>
        set_token access_token (tc_now_set tc + (expires_in - 60) * 1000) ;;;
        ret access_token
    end.

Definition falsy_to_none (o : option string) : option string :=
  match o with
  | Some s => if Str.truthy s then Some s else None
  | None => None
  end.

(** [fetchHotelOffers(hotelIds, checkIn, checkOut)]: the token is acquired
    outside the [try], the request is sent inside it. *)
Definition fetchHotelOffers (o : Oracle) (hotelIds : list string)
  (checkIn checkOut : option string) : Async (list AmadeusOffer) :=
  if Z.of_nat (List.length hotelIds) =? 0 then ret []
  else
    token <- getAmadeusToken (auth2 o) ;;
    let limitedIds := slice hotelIds 0 10 in
    try_catch
      (response <- fetch (HotelOffers limitedIds (falsy_to_none checkIn)
                                      (falsy_to_none checkOut)) (offers o) ;;
       match response with
       | NotOk _ => ret []
       | BadBody =>
           throw (BodyError (HotelOffers limitedIds (falsy_to_none checkIn)
                                         (falsy_to_none checkOut)))
       | Ok data => ret data
       end)
      (fun error => ret []).

Definition opt_string_eqb (a b : option string) : bool :=
  match a, b with
  | None, None => true
  | Some x, Some y => (x =? y)%string
  | _, _ => false
  end.

(** The [filter] with the [seenIds] set: first occurrence wins. *)
Fixpoint uniqueBy (seenIds : list (option string)) (l : list AmadeusHotel)
  : list AmadeusHotel :=
  match l with
  | [] => []
  | hotel :: rest =>
      if existsb (opt_string_eqb (hotelId hotel)) seenIds then
        uniqueBy seenIds rest
      else hotel :: uniqueBy (hotelId hotel :: seenIds) rest
  end.

(** The object [offersMap]: its own properties, the latest assignment to
    a key first, and its prototype, [None] standing for Object.prototype,
    the prototype of the literal [{}]. *)
Record OffersMap := {
  om_own : list (string * AmadeusOffer);
  om_proto : option AmadeusOffer
}.

(** [let offersMap = {}] *)
Definition emptyOffersMap : OffersMap := {| om_own := []; om_proto := None |}.

(** The read of property [k] of an offer object: [Some true] a truthy
    value, [Some false] a falsy one, [None] no such own property. *)
Definition own_of_offer (offer : AmadeusOffer) (k : string) : option bool :=
  match find (fun kv => (fst kv =? k)%string) (offer_properties offer) with
  | Some kv => Some (snd kv)
  | None => None
  end.

(** An assignment to [offersMap.__proto__] reaches the accessor of
    Object.prototype when no data property of that name comes first on the
    chain: none of [offersMap] itself, none of the offer that has become its
    prototype. *)
Definition reaches_proto_setter (offersMap : OffersMap) : bool :=
  negb (existsb (fun kv => (fst kv =? "__proto__")%string) (om_own offersMap))
  && match om_proto offersMap with
     | Some offer =>
         match own_of_offer offer "__proto__" with
         | Some _ => false
         | None => true
         end
     | None => true
     end.

(** One turn of the [forEach]: [offersMap[offer.hotel.hotelId] = offer]
    under the guard [offer.hotel?.hotelId].  An assignment that reaches the
    [__proto__] accessor creates no own property: it makes the offer the
    prototype of [offersMap].  Every other assignment creates or overwrites
    an own property (all the data properties on the chain are writable). *)
Definition assign_offer (offersMap : OffersMap) (offer : AmadeusOffer)
  : OffersMap :=
  match offer_hotelId offer with
  | Some i =>
      if Str.truthy i then
        if (i =? "__proto__")%string && reaches_proto_setter offersMap then
          {| om_own := om_own offersMap; om_proto := Some offer |}
        else
          {| om_own := (i, offer) :: om_own offersMap;
             om_proto := om_proto offersMap |}
      else offersMap
  | None => offersMap
  end.

(** [offersMap] after the [forEach]. *)
Definition build_offersMap (offers : list AmadeusOffer) : OffersMap :=
  fold_left assign_offer offers emptyOffersMap.

(** The property key an optional string is converted to. *)
Definition propertyKey (o : option string) : string :=
  match o with Some s => s | None => "undefined" end.

(** A member of Object.prototype reached from [offersMap]; the accessor
    [__proto__] returns the prototype of [offersMap]. *)
Definition inherited_of_Object (proto : option AmadeusOffer) (k : string)
  : option OfferData :=
  if (k =? "__proto__")%string then
    match proto with
    | Some offer => Some (AnOffer offer)
    | None => Some (ObjectMember k)
    end
  else if arr_includes Object_prototype k then Some (ObjectMember k)
  else None.

(** [offersMap[hotelId] || null]: the own property, else the property of
    the offer that has become the prototype, else the member of
    Object.prototype; a falsy value gives [null]. *)
Definition get_offersMap (offersMap : OffersMap) (hotelId : option string)
  : option OfferData :=
  let k := propertyKey hotelId in
  match find (fun kv => (fst kv =? k)%string) (om_own offersMap) with
  | Some kv => Some (AnOffer (snd kv))
  | None =>
      match om_proto offersMap with
      | Some offer =>
          match own_of_offer offer k with
          | Some true => Some (OfferMember offer k)
          | Some false => None
          | None => inherited_of_Object (om_proto offersMap) k
          end
      | None => inherited_of_Object None k
      end
  end.

(** [arr.map((item, index) => f(item, index))] *)
Fixpoint mapi_from {A B} (index : nat) (f : A -> nat -> B) (l : list A) : list B :=
  match l with
  | [] => []
  | item :: rest => f item index :: mapi_from (S index) f rest
  end.

(* ================================================================== *)
(** ** Pagination controller *)

(** The pagination block that [searchHotels] repeats on its mock, unresolved,
    cache-hit and cache-miss paths. *)
Definition paginate (results : list Hotel) (page : Z) : SearchResult :=
  let total := Z.of_nat (List.length results) in
  let startIndex := (page - 1) * HOTELS_PER_PAGE in
  let endIndex := startIndex + HOTELS_PER_PAGE in
  {| hotels := slice results startIndex endIndex;
     total := total;
     page := page;
     hasMore := endIndex <? total |}.

(** The result the two error fallbacks build: always the first page. *)
Definition firstPage (results : list Hotel) : SearchResult :=
  {| hotels := slice results 0 HOTELS_PER_PAGE;
     total := Z.of_nat (List.length results);
     page := 1;
     hasMore := Z.of_nat (List.length results) >? HOTELS_PER_PAGE |}.

(* ================================================================== *)
(** ** Search orchestrator *)

(** [{ ...filters, location: undefined }] *)
Definition without_location (filters : SearchFilters) : SearchFilters :=
  {| f_location := None; checkIn := checkIn filters;
     checkOut := checkOut filters; guests := guests filters;
     minPrice := minPrice filters; maxPrice := maxPrice filters;
     f_rating := f_rating filters; f_amenities := f_amenities filters;
     sortBy := sortBy filters |}.

(** Filter and sort of the static catalog, as on every mock path. *)
Definition mockResults (env : Env) (filters : SearchFilters) : list Hotel :=
  let results := filterHotels (mockHotels env) filters in
  sortHotels (localeCompare env) results (sortBy filters).

(** The [try] block of [searchHotels]. *)
Definition searchHotels_try (env : Env) (o : Oracle)
  (filters : SearchFilters) (page : Z) : Async SearchResult :=
  if shouldUseMockData env then
    ret (paginate (mockResults env filters) page)
  else
    (* === LIVE AMADEUS API === *)
    match getCityCode (f_location filters) with
    | None => ret (paginate (mockResults env filters) page)
    | Some cityCode =>
        st <- get ;;
        if isCacheValid (now_cache o) filters st then
          let cachedHotels := c_hotels (searchCache st) in
          ret (paginate cachedHotels page)
        else
          token <- getAmadeusToken (auth1 o) ;;
          response <- fetch (HotelsByCity cityCode) (catalog o) ;;
          match response with
          | NotOk text_ok =>
              if text_ok then ret (firstPage (mockResults env filters))
              else throw (BodyError (HotelsByCity cityCode))
          | BadBody => throw (BodyError (HotelsByCity cityCode))
          | Ok data =>
              let uniqueHotels := uniqueBy [] data in
              let hotelList := slice uniqueHotels 0 50 in
              let hotelIds :=
                flat_map (fun h => match falsy_to_none (hotelId h) with
                                   | Some i => [i]
                                   | None => []
                                   end)
                         (slice hotelList 0 15) in
              offersMap <-
                (if 0 <? Z.of_nat (List.length hotelIds) then
                   try_catch
                     (offers <- fetchHotelOffers o hotelIds (checkIn filters)
                                                 (checkOut filters) ;;
                      ret (build_offersMap offers))
                     (fun err => ret emptyOffersMap)
                 else ret emptyOffersMap) ;;
              let mappedHotels :=
                mapi_from 0
                  (fun item index =>
                     mapAmadeusHotel o item index
                                     (get_offersMap offersMap (hotelId item)))
                  hotelList in
              let mappedHotels :=
                filterHotels mappedHotels (without_location filters) in
              let mappedHotels :=
                sortHotels (localeCompare env) mappedHotels (sortBy filters) in
              set_searchCache
                {| key := Some (getCacheKey filters);
                   c_hotels := mappedHotels;
                   timestamp := now_write o;
                   ttl := 5 * 60 * 1000 |} ;;;
              ret (paginate mappedHotels page)
          end
    end.

(** [searchHotels(filters, page)]: the [catch] turns every error of the
    [try] block into the first page of the mock results. *)
Definition searchHotels (env : Env) (o : Oracle)
  (filters : SearchFilters) (page : Z) (st : State) : SearchResult * State :=
  match searchHotels_try env o filters page st with
  | (Return result, st') => (result, st')
  | (Threw error, st') => (firstPage (mockResults env filters), st')
  end.

(* ================================================================== *)
(** ** Specification-side predicates *)

(** [sub] occurs in [s]. *)
Definition Substring (sub s : string) : Prop :=
  exists p q, s = (p ++ sub ++ q)%string.

(** The filter predicates as the code applies them: a bound is in force
    only when its value is truthy, so a bound of [0] is no bound. *)
Definition Passes (f : SearchFilters) (h : Hotel) : Prop :=
  (forall loc, f_location f = Some loc -> loc <> "" ->
     Substring (Str.trim (Str.toLowerCase loc))
               (Str.toLowerCase (city (location h)))
     \/ Substring (Str.trim (Str.toLowerCase loc))
                  (Str.toLowerCase (country (location h))))
  /\ (forall m, minPrice f = Some m -> ~ (m == 0)%Q -> (m <= pricePerNight h)%Q)
  /\ (forall m, maxPrice f = Some m -> ~ (m == 0)%Q -> (pricePerNight h <= m)%Q)
  /\ (forall r, f_rating f = Some r -> ~ (r == 0)%Q -> (r <= rating h)%Q)
  /\ (forall req, f_amenities f = Some req -> req <> [] ->
        forall a, In a req -> In a (amenities h)).

(** The filter predicates in the words of the specification: every bound
    that is set is in force. *)
Definition PassesAsSpecified (f : SearchFilters) (h : Hotel) : Prop :=
  (forall loc, f_location f = Some loc -> loc <> "" ->
     Substring (Str.trim (Str.toLowerCase loc))
               (Str.toLowerCase (city (location h)))
     \/ Substring (Str.trim (Str.toLowerCase loc))
                  (Str.toLowerCase (country (location h))))
  /\ (forall m, minPrice f = Some m -> (m <= pricePerNight h)%Q)
  /\ (forall m, maxPrice f = Some m -> (pricePerNight h <= m)%Q)
  /\ (forall r, f_rating f = Some r -> (r <= rating h)%Q)
  /\ (forall req, f_amenities f = Some req -> req <> [] ->
        forall a, In a req -> In a (amenities h)).

(** Two hotels tie under a comparator when it returns zero on them. *)
Definition tie {A : Type} (comparefn : A -> A -> number) (a x : A) : bool :=
  Qeq_bool (comparefn a x) 0.

(** A comparator is consistent on ties when things that tie with the same
    element tie with each other, as the comparators of a total preorder do. *)
Definition ConsistentTies {A : Type} (comparefn : A -> A -> number) : Prop :=
  forall a x y,
    (comparefn a x == 0)%Q -> (comparefn a y == 0)%Q -> (comparefn x y == 0)%Q.

(** The four sort keys of the [switch] in [sortHotels]. *)
Definition knownSortKey (s : string) : bool :=
  (s =? "price_asc")%string || (s =? "price_desc")%string
  || (s =? "rating_desc")%string || (s =? "name_asc")%string.

(** A run of [getAmadeusToken] ends with a token: the cached one is still
    valid, or the token endpoint grants one. *)
Definition acquiresToken (tc : TokenCall) (st : State) : bool :=
  (opt_truthy (amadeusToken st) && (tc_now tc <? tokenExpiresAt st))
  || match tc_response tc with
     | Some (Ok _) => true
     | _ => false
     end.

(** The number of requests sent so far. *)
Definition sent (st : State) : nat := List.length (requests st).

(** An asynchronous computation never forgets a request. *)
Definition Mono {A : Type} (m : Async A) : Prop :=
  forall st, (sent st <= sent (snd (m st)))%nat.

(** An asynchronous computation sends at least one request. *)
Definition Sends {A : Type} (m : Async A) : Prop :=
  forall st, (sent st < sent (snd (m st)))%nat.

(** The result set of a live search that misses the cache and whose
    catalog query answers [data]: the remote hotels, deduplicated and capped
    at fifty, mapped with the offers that could be fetched for the first
    fifteen of them (none when there is no id to ask for, no token for the
    offers request or no readable successful response), filtered without
    the location and sorted.  [st] is the state in which the search starts. *)
Definition remoteResults (env : Env) (o : Oracle) (f : SearchFilters)
  (data : list AmadeusHotel) (st : State) : list Hotel :=
  let hotelList := slice (uniqueBy [] data) 0 50 in
  let hotelIds :=
    flat_map (fun h => match falsy_to_none (hotelId h) with
                       | Some i => [i]
                       | None => []
                       end)
             (slice hotelList 0 15) in
  let st1 := snd (getAmadeusToken (auth1 o) st) in
  let fetched :=
    if (0 <? Z.of_nat (List.length hotelIds)) && acquiresToken (auth2 o) st1
    then match offers o with
         | Some (Ok offers) => offers
         | _ => []
         end
    else [] in
  let mapped :=
    mapi_from 0
      (fun item index =>
         mapAmadeusHotel o item index
           (get_offersMap (build_offersMap fetched) (hotelId item)))
      hotelList in
  sortHotels (localeCompare env) (filterHotels mapped (without_location f))
             (sortBy f).

(* ================================================================== *)
(** ** Sample data *)

Definition sampleHotel (i n : string) (price stars user : number)
  (c k : string) (am : list string) : Hotel :=
  {| id := i; name := n; rating := stars; userRating := user;
     pricePerNight := price; location := {| city := c; country := k |};
     amenities := am |}.

Definition h300 : Hotel :=
  sampleHotel "h-1" "Grand Plaza" 300%Q 5%Q (91 # 10) "Paris" "France" ["wifi"; "pool"].
Definition h100 : Hotel :=
  sampleHotel "h-2" "City Inn" 100%Q 3%Q (78 # 10) "London" "United Kingdom" ["wifi"].
Definition h200 : Hotel :=
  sampleHotel "h-3" "Harbour View" 200%Q 4%Q (85 # 10) "Tokyo" "Japan" ["wifi"; "spa"].

Definition priceFilters (lo hi : option number) : SearchFilters :=
  {| f_location := None; checkIn := None; checkOut := None; guests := Some 2%Q;
     minPrice := lo; maxPrice := hi; f_rating := None;
     f_amenities := Some []; sortBy := Some "price_asc" |}.

(** A sample collation: comparison by character codes. *)
Definition codeCompare (a b : string) : number :=
  match String.compare a b with
  | Eq => 0%Q
  | Lt => (-1)%Q
  | Gt => 1%Q
  end.

(** A catalog of fourteen hotels priced 100, 110, ..., 230. *)
Definition catalogHotel (n : nat) : Hotel :=
  sampleHotel (String (ascii_of_nat (65 + n)) "") "Hotel"
              (inject_Z (Z.of_nat (100 + 10 * n))) 4%Q (80 # 10)
              "Paris" "France" ["wifi"].

Definition sampleCatalog : list Hotel := map catalogHotel (seq 0 14).

Definition mockEnv : Env :=
  {| VITE_API_MODE := None; VITE_AMADEUS_CLIENT_ID := None;
     VITE_AMADEUS_CLIENT_SECRET := None;
     mockHotels := sampleCatalog; localeCompare := codeCompare |}.

Definition liveEnv : Env :=
  {| VITE_API_MODE := Some "live"; VITE_AMADEUS_CLIENT_ID := Some "client";
     VITE_AMADEUS_CLIENT_SECRET := Some "secret";
     mockHotels := sampleCatalog; localeCompare := codeCompare |}.

Definition locationFilters (loc : string) : SearchFilters :=
  {| f_location := Some loc; checkIn := None; checkOut := None;
     guests := Some 2%Q; minPrice := None; maxPrice := None; f_rating := None;
     f_amenities := Some []; sortBy := Some "price_asc" |}.

(** A remote hotel is mapped to a hotel priced by its position. *)
Definition sampleMap (item : AmadeusHotel) (index : nat)
  (offerData : option OfferData) : Hotel :=
  sampleHotel (propertyKey (hotelId item)) "Remote"
              (inject_Z (Z.of_nat (150 + index))) 4%Q (82 # 10)
              "PAR" "FR" ["WIFI"; "AIR_CONDITIONING"].

Definition remoteHotel (i : string) : AmadeusHotel :=
  {| hotelId := Some i; ah_name := Some "Remote"; ah_rating := Some "4" |}.

Definition tokenGranted (now : Z) : TokenCall :=
  {| tc_now := now; tc_response := Some (Ok (Some "token", 1800));
     tc_now_set := now |}.

Definition tokenRefused (now : Z) : TokenCall :=
  {| tc_now := now; tc_response := Some (NotOk true); tc_now_set := now |}.

(** A call at clock [now] whose token request is granted, whose catalog
    request answers [data] and whose offers request is rejected. *)
Definition sampleOracle (now : Z) (data : list AmadeusHotel) : Oracle :=
  {| now_cache := now; auth1 := tokenGranted now;
     catalog := Some (Ok data);
     auth2 := tokenGranted now; offers := None;
     mapAmadeusHotel := sampleMap; now_write := now + 900 |}.

(** A state whose cached token expires at clock 1500. *)
Definition staleTokenState : State :=
  {| amadeusToken := Some "token"; tokenExpiresAt := 1500;
     searchCache := emptyCache; requests := []; thrown := [] |}.

(** A call during which the cached token expires after the catalog query
    and the token endpoint refuses a new one. *)
Definition enrichmentAuthFailure : Oracle :=
  {| now_cache := 1000; auth1 := tokenGranted 1000;
     catalog := Some (Ok [remoteHotel "H1"]);
     auth2 := tokenRefused 2000; offers := None;
     mapAmadeusHotel := sampleMap; now_write := 2100 |}.

(** A call whose token request is refused. *)
Definition authFailure : Oracle :=
  {| now_cache := 1000; auth1 := tokenRefused 1000;
     catalog := Some (Ok [remoteHotel "H1"]);
     auth2 := tokenRefused 1000; offers := None;
     mapAmadeusHotel := sampleMap; now_write := 1100 |}.

(* ================================================================== *)
(** ** Placeholder images *)

(** The pool of [generateHotelImages]. *)
Definition hotelImages : list string :=
  [ "https://images.unsplash.com/photo-1566073771259-6a8506099945?w=800&q=80";
    "https://images.unsplash.com/photo-1582719508461-905c673771fd?w=800&q=80";
    "https://images.unsplash.com/photo-1590490360182-c33d57733427?w=800&q=80";
    "https://images.unsplash.com/photo-1551882547-ff40c63fe5fa?w=800&q=80";
    "https://images.unsplash.com/photo-1571896349842-33c89424de2d?w=800&q=80";
    "https://images.unsplash.com/photo-1520250497591-112f2f40a3f4?w=800&q=80";
    "https://images.unsplash.com/photo-1542314831-068cd1dbfeeb?w=800&q=80";
    "https://images.unsplash.com/photo-1564501049412-61c2a3083791?w=800&q=80";
    "https://images.unsplash.com/photo-1445019980597-93fa8acb246c?w=800&q=80";
    "https://images.unsplash.com/photo-1587213811864-46e59f6873b1?w=800&q=80" ].

(** [ToInt32]: the signed 32-bit integer congruent to [z] modulo 2^32,
    as the bitwise operators produce. *)
Definition toInt32 (z : Z) : Z := (z + 2 ^ 31) mod 2 ^ 32 - 2 ^ 31.

(** [s.split("")] followed by [charCodeAt(0)] on each piece. *)
Definition charCodes (s : string) : list Z :=
  map (fun c => Z.of_nat (nat_of_ascii c)) (list_ascii_of_string s).

(** The reducer [(a, b) => { a = (a << 5) - a + b.charCodeAt(0); return a & a; }]:
    the shift works on the 32-bit value of [a] and wraps, the subtraction
    and addition are exact, [a & a] wraps again. *)
Definition hashStep (a b : Z) : Z :=
  let a := toInt32 (Z.shiftl (toInt32 a) 5) - a + b in
  toInt32 (Z.land a a).

Definition imageHash (s : string) : Z := fold_left hashStep (charCodes s) 0.

(** [generateHotelImages(hotelId, hotelName)].  An array read is an
    [option]: [None] is the [undefined] of an index out of range. *)
Definition generateHotelImages (hotelId hotelName : option string)
  : list (option string) :=
  let hash := imageHash (Str.orElse hotelId (Str.orElse hotelName "")) in
  let len := Z.of_nat (List.length hotelImages) in
  let startIndex := Z.abs hash mod len in
  [ nth_error hotelImages (Z.to_nat startIndex);
    nth_error hotelImages (Z.to_nat ((startIndex + 1) mod len));
    nth_error hotelImages (Z.to_nat ((startIndex + 2) mod len)) ].

(* ================================================================== *)
(** ** Lookups *)

(** [getHotelById(hotelId)]: [hotel || null]; nothing in the [try] block
    can throw, so the re-throwing [catch] is never entered. *)
Definition getHotelById (env : Env) (hotelId : string) : option Hotel :=
  if shouldUseMockData env then
    find (fun h => (id h =? hotelId)%string) (mockHotels env)
  else
    (* For live mode, try to find in mock data as fallback *)
    find (fun h => (id h =? hotelId)%string) (mockHotels env).

(** [getHotelsByIds(hotelIds)] *)
Definition getHotelsByIds (env : Env) (hotelIds : list string) : list Hotel :=
  if shouldUseMockData env then
    filter (fun hotel => arr_includes hotelIds (id hotel)) (mockHotels env)
  else
    filter (fun hotel => arr_includes hotelIds (id hotel)) (mockHotels env).

(** [city.charAt(0).toUpperCase() + city.slice(1)] *)
Definition capitalize (city : string) : string :=
  match city with
  | EmptyString => EmptyString
  | String c rest => String (Str.upperChar c) rest
  end.

(** [getDestinations()].  [getUniqueCities] belongs to api/mockData.js;
    its result is a parameter. *)
Definition getDestinations (env : Env) (getUniqueCities : list string)
  : list string :=
  if shouldUseMockData env then getUniqueCities
  else map (fun entry => capitalize (fst entry)) CITY_CODES.

(* ================================================================== *)
(** ** The search hook (hooks/useHotelSearch.js) *)

(** The state of the hook and its four handlers.  One handler runs to
    completion before the next starts, as its callers sequence them; the
    effect that calls [search] by itself after the location has been typed
    is a caller of [search] and is not part of the model. *)
Record HookState := {
  hk_hotels : list Hotel;
  hk_loading : bool;
  hk_error : option string;
  hk_total : Z;
  hk_page : Z;
  hk_hasMore : bool;
  hk_filters : SearchFilters
}.

(** A [Partial<SearchFilters>]: [None] is a property that is not there,
    [Some v] a property holding [v] (which can be [undefined]). *)
Record PartialFilters := {
  p_location : option (option string);
  p_checkIn : option (option string);
  p_checkOut : option (option string);
  p_guests : option (option number);
  p_minPrice : option (option number);
  p_maxPrice : option (option number);
  p_rating : option (option number);
  p_amenities : option (option (list string));
  p_sortBy : option (option string)
}.

Definition spread {A : Type} (prev : A) (new : option A) : A :=
  match new with Some v => v | None => prev end.

(** [{ ...prev, ...newFilters }] *)
Definition mergeFilters (prev : SearchFilters) (newFilters : PartialFilters)
  : SearchFilters :=
  {| f_location := spread (f_location prev) (p_location newFilters);
     checkIn := spread (checkIn prev) (p_checkIn newFilters);
     checkOut := spread (checkOut prev) (p_checkOut newFilters);
     guests := spread (guests prev) (p_guests newFilters);
     minPrice := spread (minPrice prev) (p_minPrice newFilters);
     maxPrice := spread (maxPrice prev) (p_maxPrice newFilters);
     f_rating := spread (f_rating prev) (p_rating newFilters);
     f_amenities := spread (f_amenities prev) (p_amenities newFilters);
     sortBy := spread (sortBy prev) (p_sortBy newFilters) |}.

Definition initialFilters : SearchFilters :=
  {| f_location := Some ""; checkIn := Some ""; checkOut := Some "";
     guests := Some 2%Q; minPrice := None; maxPrice := None;
     f_rating := None; f_amenities := Some []; sortBy := Some "price_asc" |}.

(** The state after the [useState] initialisers. *)
Definition useHotelSearch (defaultFilters : PartialFilters) : HookState :=
  {| hk_hotels := []; hk_loading := false; hk_error := None; hk_total := 0;
     hk_page := 1; hk_hasMore := false;
     hk_filters := mergeFilters initialFilters defaultFilters |}.

(** [updateFilters(newFilters)] *)
Definition updateFilters (newFilters : PartialFilters)
  (s : HookState * State) : HookState * State :=
  let (hk, st) := s in
  ({| hk_hotels := []; hk_loading := hk_loading hk; hk_error := hk_error hk;
      hk_total := hk_total hk; hk_page := 1; hk_hasMore := hk_hasMore hk;
      hk_filters := mergeFilters (hk_filters hk) newFilters |},
   clearSearchCache st).

(** [search()]: [searchHotels] returns a result on every input, so the
    [catch] of the handler is never entered. *)
Definition search (env : Env) (o : Oracle) (s : HookState * State)
  : HookState * State :=
  let (hk, st) := s in
  let (result, st') := searchHotels env o (hk_filters hk) 1 st in
  ({| hk_hotels := hotels result; hk_loading := false; hk_error := None;
      hk_total := total result; hk_page := 1; hk_hasMore := hasMore result;
      hk_filters := hk_filters hk |}, st').

(** [loadMore()] *)
Definition loadMore (env : Env) (o : Oracle) (s : HookState * State)
  : HookState * State :=
  let (hk, st) := s in
  if hk_loading hk || negb (hk_hasMore hk) then s
  else
    let nextPage := hk_page hk + 1 in
    let (result, st') := searchHotels env o (hk_filters hk) nextPage st in
    ({| hk_hotels := (hk_hotels hk ++ hotels result)%list;
        hk_loading := false; hk_error := None;
        hk_total := hk_total hk; hk_page := nextPage;
        hk_hasMore := hasMore result;
        hk_filters := hk_filters hk |}, st').

(** [reset()] *)
Definition reset (defaultFilters : PartialFilters)
  (s : HookState * State) : HookState * State :=
  (useHotelSearch defaultFilters, clearSearchCache (snd s)).

(* ================================================================== *)
(** ** Specification-side notions for the further properties *)

(** A signed 32-bit integer. *)
Definition int32 (z : Z) : Prop := - 2 ^ 31 <= z < 2 ^ 31.

(** The filters object a cache key stands for: the properties the key
    records, without the location (the remote query has applied it). *)
Definition filtersOfKey (k : CacheKey) : SearchFilters :=
  {| f_location := None; checkIn := Some (k_checkIn k);
     checkOut := Some (k_checkOut k); guests := None;
     minPrice := k_minPrice k; maxPrice := k_maxPrice k;
     f_rating := k_rating k; f_amenities := Some (k_amenities k);
     sortBy := Some (k_sortBy k) |}.

(** The cache slot is sound: its time to live is five minutes, it holds at
    most fifty hotels, and every hotel it holds passes the price, rating and
    amenities predicates of the key it is stored under. *)
Definition CacheSound (st : State) : Prop :=
  ttl (searchCache st) = 5 * 60 * 1000
  /\ (List.length (c_hotels (searchCache st)) <= 50)%nat
  /\ (key (searchCache st) = None -> c_hotels (searchCache st) = [])
  /\ (forall k, key (searchCache st) = Some k ->
        Forall (fun h => keepHotel (filtersOfKey k) h = true)
               (c_hotels (searchCache st))).

(** The pages [1..n] of a list, one after the other. *)
Fixpoint pagesUpTo (results : list Hotel) (n : nat) : list Hotel :=
  match n with
  | O => []
  | S m => (pagesUpTo results m
            ++ hotels (paginate results (Z.of_nat (S m))))%list
  end.

(** [n] calls of [loadMore], each with its own outside world. *)
Fixpoint loadMores (env : Env) (os : list Oracle) (s : HookState * State)
  : HookState * State :=
  match os with
  | [] => s
  | o :: rest => loadMores env rest (loadMore env o s)
  end.

(** Three upper-case letters. *)
Definition isUpper (c : ascii) : bool :=
  let n := nat_of_ascii c in andb (Nat.leb 65 n) (Nat.leb n 90).

Definition isUpperCode (s : string) : bool :=
  match s with
  | String a (String b (String c EmptyString)) =>
      isUpper a && isUpper b && isUpper c
  | _ => false
  end.

(** An asynchronous computation sends at most [n] requests. *)
Definition AtMost {A : Type} (n : nat) (m : Async A) : Prop :=
  forall st, (sent (snd (m st)) <= sent st + n)%nat.

(** The test of [getAmadeusToken] for reusing the cached token at clock
    [now]. *)
Definition tokenValid (now : Z) (st : State) : bool :=
  opt_truthy (amadeusToken st) && (now <? tokenExpiresAt st).

(* ================================================================== *)
(** * Properties *)

(** ** Strings and numbers *)

Lemma prefix_spec (p s : string) :
  String.prefix p s = true <-> exists q, s = (p ++ q)%string.
Proof.
  revert s; induction p as [|c p IH]; intros s; simpl.
  - split; [intros _; now exists s | intros _; now destruct s].
  - destruct s as [|d s]; simpl.
    + split; [discriminate | intros [q H]; discriminate].
    + destruct (ascii_dec c d) as [->|n].
      * rewrite IH. split; intros [q H]; exists q; [now rewrite H | now inversion H].
      * split; [discriminate | intros [q H]; inversion H; congruence].
Qed.

Lemma includes_spec (s sub : string) :
  Str.includes s sub = true <-> Substring sub s.
Proof.
  unfold Substring. induction s as [|c s IH].
  - cbn [Str.includes]. rewrite orb_false_r, prefix_spec. split.
    + intros [q H]. now exists ""%string, q.
    + intros [p [q H]]. destruct p; [now exists q | discriminate].
  - cbn [Str.includes]. rewrite orb_true_iff, prefix_spec, IH. split.
    + intros [[q H] | [p [q H]]].
      * now exists ""%string, q.
      * exists (String c p), q. simpl. now rewrite H.
    + intros [p [q H]]. destruct p as [|d p]; simpl in H.
      * left. now exists q.
      * right. inversion H. now exists p, q.
Qed.

Lemma truthy_num_spec (q : number) : Num.truthy q = true <-> ~ (q == 0)%Q.
Proof.
  unfold Num.truthy. rewrite negb_true_iff, <- not_true_iff_false.
  now rewrite Qeq_bool_iff.
Qed.

Lemma ltb_spec (a b : number) : Num.ltb a b = true <-> (a < b)%Q.
Proof.
  unfold Num.ltb. rewrite Qlt_alt. destruct (a ?= b)%Q; split; congruence.
Qed.

Lemma ltb_false (a b : number) : Num.ltb a b = false <-> (b <= a)%Q.
Proof.
  rewrite <- not_true_iff_false, ltb_spec. split.
  - apply Qnot_lt_le.
  - apply Qle_not_lt.
Qed.

Lemma truthy_str_spec (s : string) : Str.truthy s = true <-> s <> ""%string.
Proof.
  unfold Str.truthy. rewrite negb_true_iff. apply String.eqb_neq.
Qed.

Lemma arr_includes_spec (l : list string) (x : string) :
  arr_includes l x = true <-> In x l.
Proof.
  unfold arr_includes. rewrite existsb_exists. split.
  - intros [y [Hy E]]. apply String.eqb_eq in E. now subst.
  - intros H. exists x. split; [assumption | apply String.eqb_refl].
Qed.

(** ** Filter engine *)

Lemma keep_location (f : SearchFilters) (h : Hotel) :
  (match f_location f with
   | Some loc =>
       if Str.truthy loc then
         let searchTerm := Str.trim (Str.toLowerCase loc) in
         let cityMatch :=
           Str.includes (Str.toLowerCase (city (location h))) searchTerm in
         let countryMatch :=
           Str.includes (Str.toLowerCase (country (location h))) searchTerm in
         negb (negb cityMatch && negb countryMatch)
       else true
   | None => true
   end) = true
  <-> (forall loc, f_location f = Some loc -> loc <> "" ->
         Substring (Str.trim (Str.toLowerCase loc))
                   (Str.toLowerCase (city (location h)))
         \/ Substring (Str.trim (Str.toLowerCase loc))
                      (Str.toLowerCase (country (location h)))).
Proof.
  destruct (f_location f) as [loc|].
  - destruct (Str.truthy loc) eqn:T.
    + cbv zeta. rewrite negb_andb, !negb_involutive, orb_true_iff.
      rewrite !includes_spec. split.
      * intros H loc' E _. now inversion E; subst.
      * intros H. apply (H loc eq_refl). now apply truthy_str_spec.
    + split; [|reflexivity]. intros _ loc' E N. inversion E; subst.
      apply truthy_str_spec in N. congruence.
  - split; [discriminate|reflexivity].
Qed.

Lemma keep_lower (bound : option number) (v : number) :
  (match bound with
   | Some m => negb (Num.truthy m && Num.ltb v m)
   | None => true
   end) = true
  <-> (forall m, bound = Some m -> ~ (m == 0)%Q -> (m <= v)%Q).
Proof.
  destruct bound as [m|]; [|split; [discriminate|reflexivity]].
  rewrite negb_true_iff, andb_false_iff. split.
  - intros [T|L] m' E N; inversion E; subst.
    + apply truthy_num_spec in N. congruence.
    + now apply ltb_false.
  - intros H. destruct (Num.truthy m) eqn:T; [right|now left].
    apply ltb_false, (H m eq_refl). now apply truthy_num_spec.
Qed.

Lemma keep_upper (bound : option number) (v : number) :
  (match bound with
   | Some m => negb (Num.truthy m && Num.gtb v m)
   | None => true
   end) = true
  <-> (forall m, bound = Some m -> ~ (m == 0)%Q -> (v <= m)%Q).
Proof.
  destruct bound as [m|]; [|split; [discriminate|reflexivity]].
  unfold Num.gtb. rewrite negb_true_iff, andb_false_iff. split.
  - intros [T|L] m' E N; inversion E; subst.
    + apply truthy_num_spec in N. congruence.
    + now apply ltb_false.
  - intros H. destruct (Num.truthy m) eqn:T; [right|now left].
    apply ltb_false, (H m eq_refl). now apply truthy_num_spec.
Qed.

Lemma keep_amenities (required : option (list string)) (have : list string) :
  (match required with
   | Some req =>
       if (0 <? Z.of_nat (List.length req)) then
         forallb (fun amenity => arr_includes have amenity) req
       else true
   | None => true
   end) = true
  <-> (forall req, required = Some req -> req <> [] ->
         forall a, In a req -> In a have).
Proof.
  destruct required as [req|]; [|split; [discriminate|reflexivity]].
  destruct req as [|a0 req].
  - simpl. split; [|reflexivity]. intros _ req E N. inversion E; congruence.
  - replace (0 <? Z.of_nat (List.length (a0 :: req))) with true
      by (symmetry; apply Z.ltb_lt; simpl; lia).
    rewrite forallb_forall. split.
    + intros H req' E _ a Ha. inversion E; subst.
      now apply arr_includes_spec, H.
    + intros H a Ha. apply arr_includes_spec.
      now apply (H (a0 :: req) eq_refl); [discriminate|].
Qed.

Lemma keepHotel_spec (f : SearchFilters) (h : Hotel) :
  keepHotel f h = true <-> Passes f h.
Proof.
  unfold keepHotel, Passes.
  rewrite !andb_true_iff, keep_location, !keep_lower, keep_upper, keep_amenities.
  tauto.
Qed.

(** C3 (as amended): [filterHotels] keeps, in their input order, exactly
    the hotels that pass every predicate in force: the location match when
    [filters.location] is a non-empty string, each of the bounds
    [minPrice], [maxPrice] and [rating] when it is set and not zero, and the
    amenities inclusion when the requested list is not empty. *)
Theorem filterHotels_exact (hs : list Hotel) (f : SearchFilters) :
  filterHotels hs f = filter (keepHotel f) hs
  /\ (forall h, keepHotel f h = true <-> Passes f h)
  /\ (forall h, In h (filterHotels hs f) <-> In h hs /\ Passes f h).
Proof.
  split; [reflexivity|]. split; [apply keepHotel_spec|].
  intros h. unfold filterHotels. now rewrite filter_In, keepHotel_spec.
Qed.

(** C3 (as stated) fails for a bound of zero: with [maxPrice = 0] a hotel
    at 100 a night is returned although 100 > 0. *)
Lemma filterHotels_zero_bound :
  maxPrice (priceFilters None (Some 0%Q)) = Some 0%Q
  /\ In h100 (filterHotels [h300; h100; h200] (priceFilters None (Some 0%Q)))
  /\ ~ PassesAsSpecified (priceFilters None (Some 0%Q)) h100.
Proof.
  split; [reflexivity|]. split; [vm_compute; tauto|].
  intros (_ & _ & Hmax & _). specialize (Hmax 0%Q eq_refl).
  vm_compute in Hmax. now apply Hmax.
Qed.

(** C7 (as amended): when [minPrice] and [maxPrice] are both set and not
    zero and [minPrice > maxPrice], [filterHotels] returns the empty list. *)
Theorem filterHotels_inverted_range (hs : list Hotel) (f : SearchFilters)
  (lo hi : number) :
  minPrice f = Some lo -> maxPrice f = Some hi ->
  ~ (lo == 0)%Q -> ~ (hi == 0)%Q -> (hi < lo)%Q ->
  filterHotels hs f = [].
Proof.
  intros Hlo Hhi Nlo Nhi Hlt.
  destruct (filterHotels hs f) as [|h rest] eqn:E; [reflexivity|exfalso].
  assert (Hin : In h (filterHotels hs f)) by (rewrite E; now left).
  unfold filterHotels in Hin. apply filter_In in Hin. destruct Hin as [_ Hin].
  apply keepHotel_spec in Hin. destruct Hin as (_ & Hmin & Hmax & _).
  specialize (Hmin lo Hlo Nlo). specialize (Hmax hi Hhi Nhi).
  apply (Qlt_irrefl lo).
  eapply Qle_lt_trans; [apply Hmin|]. eapply Qle_lt_trans; [apply Hmax|assumption].
Qed.

Lemma filterHotels_inverted_range_witness :
  filterHotels [h300; h100; h200] (priceFilters (Some 250%Q) (Some 150%Q)) = [].
Proof.
  apply (filterHotels_inverted_range _ _ 250%Q 150%Q);
    try reflexivity; vm_compute; congruence.
Defined.

(** C7 (as stated) fails when the upper bound is zero: [minPrice = 5],
    [maxPrice = 0] keeps every hotel priced at 5 or more. *)
Lemma filterHotels_inverted_range_zero :
  minPrice (priceFilters (Some 5%Q) (Some 0%Q)) = Some 5%Q
  /\ maxPrice (priceFilters (Some 5%Q) (Some 0%Q)) = Some 0%Q
  /\ (0 < 5)%Q
  /\ filterHotels [h300; h100; h200] (priceFilters (Some 5%Q) (Some 0%Q))
     = [h300; h100; h200].
Proof.
  repeat split.
Qed.

(** ** Sort engine *)

Section SortFacts.
Context {A : Type} (cmp : A -> A -> number).

Lemma insert_perm (x : A) (l : list A) : Permutation (insert cmp x l) (x :: l).
Proof.
  induction l as [|y l IH]; simpl; [reflexivity|].
  destruct (Num.gtb (cmp x y) 0%Q); [|reflexivity].
  rewrite IH. apply perm_swap.
Qed.

Lemma sort_perm (l : list A) : Permutation (sort cmp l) l.
Proof.
  induction l as [|x l IH]; simpl; [reflexivity|].
  rewrite insert_perm. now constructor.
Qed.

(** Stability: the elements of one tie class keep their input order. *)
Lemma insert_ties (Hties : ConsistentTies cmp) (a x : A) (l : list A) :
  filter (tie cmp a) (insert cmp x l) = filter (tie cmp a) (x :: l).
Proof.
  induction l as [|y l IH]; [reflexivity|].
  cbn [insert]. destruct (Num.gtb (cmp x y) 0%Q) eqn:G; [|reflexivity].
  cbn [filter] in *. rewrite IH.
  destruct (tie cmp a x) eqn:Tx, (tie cmp a y) eqn:Ty; try reflexivity.
  exfalso. unfold tie in Tx, Ty. apply Qeq_bool_iff in Tx, Ty.
  pose proof (Hties a x y Tx Ty) as E.
  unfold Num.gtb in G. apply ltb_spec in G. rewrite E in G.
  now apply Qlt_irrefl in G.
Qed.

Lemma sort_ties (Hties : ConsistentTies cmp) (a : A) (l : list A) :
  filter (tie cmp a) (sort cmp l) = filter (tie cmp a) l.
Proof.
  induction l as [|x l IH]; [reflexivity|].
  cbn [sort]. rewrite insert_ties by assumption.
  cbn [filter]. now rewrite IH.
Qed.

(** Comparators that subtract a numeric key. *)
Context (key : A -> number).
Hypothesis cmp_key : forall x y, (cmp x y == key x - key y)%Q.

Lemma key_ties : ConsistentTies cmp.
Proof.
  intros a x y. rewrite !cmp_key. lra.
Qed.

Lemma gtb_key (x y : A) : Num.gtb (cmp x y) 0%Q = false <-> (key x <= key y)%Q.
Proof.
  unfold Num.gtb. rewrite ltb_false, cmp_key. split; lra.
Qed.

Lemma insert_sorted (x : A) (l : list A) :
  StronglySorted (fun a b => (key a <= key b)%Q) l ->
  StronglySorted (fun a b => (key a <= key b)%Q) (insert cmp x l).
Proof.
  induction 1 as [|y l Hs IH Hall]; cbn [insert].
  - repeat constructor.
  - destruct (Num.gtb (cmp x y) 0%Q) eqn:G.
    + constructor; [assumption|].
      eapply Permutation_Forall.
      * symmetry. apply insert_perm.
      * constructor; [|assumption].
        unfold Num.gtb in G. apply ltb_spec in G.
        rewrite cmp_key in G. lra.
    + apply gtb_key in G. constructor; [now constructor|].
      constructor; [assumption|].
      eapply Forall_impl; [|exact Hall].
      intros z Hz. simpl in Hz. lra.
Qed.

Lemma sort_sorted (l : list A) :
  StronglySorted (fun a b => (key a <= key b)%Q) (sort cmp l).
Proof.
  induction l as [|x l IH]; cbn [sort]; [constructor|].
  now apply insert_sorted.
Qed.

End SortFacts.

Lemma by_price_desc_key (x y : Hotel) :
  (by_price_desc x y == (- pricePerNight x) - (- pricePerNight y))%Q.
Proof. unfold by_price_desc. lra. Qed.

Lemma by_rating_desc_key (x y : Hotel) :
  (by_rating_desc x y == (- userRating x) - (- userRating y))%Q.
Proof. unfold by_rating_desc. lra. Qed.

Lemma by_price_asc_key (x y : Hotel) :
  (by_price_asc x y == pricePerNight x - pricePerNight y)%Q.
Proof. reflexivity. Qed.

Lemma by_name_ties (lc : string -> string -> number) :
  ConsistentTies lc -> ConsistentTies (by_name_asc lc).
Proof. intros H a x y. apply H. Qed.

Lemma descending (key : Hotel -> number) (l : list Hotel) :
  StronglySorted (fun a b => (- key a <= - key b)%Q) l ->
  StronglySorted (fun a b => (key b <= key a)%Q) l.
Proof.
  induction 1 as [|x l Hs IH Hall]; constructor; [assumption|].
  eapply Forall_impl; [|exact Hall]. intros z Hz. simpl in Hz. lra.
Qed.

Lemma codeCompare_ties : ConsistentTies codeCompare.
Proof.
  assert (E : forall a b, (codeCompare a b == 0)%Q -> a = b).
  { intros a b. unfold codeCompare.
    destruct (String.compare a b) eqn:C; intros H.
    - now apply String.compare_eq_iff.
    - discriminate.
    - discriminate. }
  intros a x y H1 H2. apply E in H1, H2. subst x y.
  unfold codeCompare.
  pose proof (String.compare_antisym a a) as R.
  destruct (String.compare a a); [reflexivity | discriminate | discriminate].
Qed.

(** C6 (as amended): ["price_asc"] orders by ascending [pricePerNight],
    ["price_desc"] by descending [pricePerNight], ["rating_desc"] by
    descending [userRating]; under every key hotels that tie keep their
    input order (for ["name_asc"] when [localeCompare] is consistent on
    ties); a [sortBy] string that is none of the four keys returns the
    input unchanged, while an absent [sortBy] takes the default parameter
    and sorts as ["price_asc"]; prices [300,100,200] become [100,200,300]
    and [300,200,100]. *)
Theorem sortHotels_spec (lc : string -> string -> number) (hs : list Hotel) :
  (Permutation (sortHotels lc hs (Some "price_asc")) hs
   /\ StronglySorted (fun a b => (pricePerNight a <= pricePerNight b)%Q)
                     (sortHotels lc hs (Some "price_asc")))
  /\ (Permutation (sortHotels lc hs (Some "price_desc")) hs
      /\ StronglySorted (fun a b => (pricePerNight b <= pricePerNight a)%Q)
                        (sortHotels lc hs (Some "price_desc")))
  /\ (Permutation (sortHotels lc hs (Some "rating_desc")) hs
      /\ StronglySorted (fun a b => (userRating b <= userRating a)%Q)
                        (sortHotels lc hs (Some "rating_desc")))
  /\ (forall a, filter (tie by_price_asc a) (sortHotels lc hs (Some "price_asc"))
                = filter (tie by_price_asc a) hs)
  /\ (forall a, filter (tie by_price_desc a) (sortHotels lc hs (Some "price_desc"))
                = filter (tie by_price_desc a) hs)
  /\ (forall a, filter (tie by_rating_desc a) (sortHotels lc hs (Some "rating_desc"))
                = filter (tie by_rating_desc a) hs)
  /\ (ConsistentTies lc ->
      Permutation (sortHotels lc hs (Some "name_asc")) hs
      /\ forall a, filter (tie (by_name_asc lc) a) (sortHotels lc hs (Some "name_asc"))
                   = filter (tie (by_name_asc lc) a) hs)
  /\ (forall k, knownSortKey k = false -> sortHotels lc hs (Some k) = hs)
  /\ sortHotels lc hs None = sortHotels lc hs (Some "price_asc")
  /\ (map pricePerNight hs = [300%Q; 100%Q; 200%Q] ->
      map pricePerNight (sortHotels lc hs (Some "price_asc"))
      = [100%Q; 200%Q; 300%Q]
      /\ map pricePerNight (sortHotels lc hs (Some "price_desc"))
         = [300%Q; 200%Q; 100%Q]).
Proof.
  unfold sortHotels. cbn [String.eqb Ascii.eqb Bool.eqb].
  repeat match goal with |- _ /\ _ => split end.
  - apply sort_perm.
  - apply (sort_sorted _ pricePerNight by_price_asc_key).
  - apply sort_perm.
  - apply descending, (sort_sorted _ _ by_price_desc_key).
  - apply sort_perm.
  - apply descending, (sort_sorted _ _ by_rating_desc_key).
  - intros a. apply sort_ties, (key_ties _ _ by_price_asc_key).
  - intros a. apply sort_ties, (key_ties _ _ by_price_desc_key).
  - intros a. apply sort_ties, (key_ties _ _ by_rating_desc_key).
  - intros H. split; [apply sort_perm|].
    intros a. now apply sort_ties, by_name_ties.
  - intros k Hk. unfold knownSortKey in Hk.
    apply orb_false_iff in Hk. destruct Hk as [Hk H4].
    apply orb_false_iff in Hk. destruct Hk as [Hk H3].
    apply orb_false_iff in Hk. destruct Hk as [H1 H2].
    now rewrite H1, H2, H3, H4.
  - reflexivity.
  - destruct hs as [|a [|b [|c [|d hs]]]]; try discriminate.
    intros E. inversion E as [[Ea Eb Ec]].
    unfold by_price_asc, by_price_desc.
    split;
      repeat (cbn [sort insert map]; rewrite ?Ea, ?Eb, ?Ec;
              match goal with
              | |- context [Num.gtb ?x ?y] =>
                  let v := eval vm_compute in (Num.gtb x y) in
                  change (Num.gtb x y) with v
              end; cbv iota);
      cbn [map]; rewrite ?Ea, ?Eb, ?Ec; reflexivity.
Qed.

Lemma sortHotels_spec_witness :
  (forall a, filter (tie (by_name_asc codeCompare) a)
               (sortHotels codeCompare [h300; h100; h200] (Some "name_asc"))
             = filter (tie (by_name_asc codeCompare) a) [h300; h100; h200])
  /\ map pricePerNight (sortHotels codeCompare [h300; h100; h200] (Some "price_asc"))
     = [100%Q; 200%Q; 300%Q].
Proof.
  destruct (sortHotels_spec codeCompare [h300; h100; h200])
    as (_ & _ & _ & _ & _ & _ & Hname & _ & _ & Hex).
  split.
  - apply (Hname codeCompare_ties).
  - apply Hex. reflexivity.
Defined.

(** C6 (as stated) fails for an absent [sortBy]: the default parameter
    makes [sortHotels] sort by ascending price instead of returning the
    input order. *)
Lemma sortHotels_absent_sorts :
  sortHotels codeCompare [h300; h100; h200] None = [h100; h200; h300]
  /\ sortHotels codeCompare [h300; h100; h200] None <> [h300; h100; h200].
Proof.
  split; [reflexivity | discriminate].
Qed.

(** ** Location resolver *)

Lemma find_first {A : Type} (p : A -> bool) (l : list A) :
  match find p l with
  | Some x =>
      exists pre post,
        l = (pre ++ x :: post)%list /\ p x = true /\ forall e, In e pre -> p e = false
  | None => forall e, In e l -> p e = false
  end.
Proof.
  induction l as [|y l IH]; simpl.
  - intros e [].
  - destruct (p y) eqn:Py.
    + exists [], l. repeat split; [assumption | intros e []].
    + destruct (find p l) as [x|].
      * destruct IH as (pre & post & -> & Px & Hpre).
        exists (y :: pre), post. repeat split; [assumption|].
        intros e [<-|He]; [assumption | now apply Hpre].
      * intros e [<-|He]; [assumption | now apply IH].
Qed.

Lemma trim_empty_test (s : string) :
  negb (Str.truthy s) || (Z.of_nat (String.length (Str.trim s)) =? 0) = true
  <-> Str.trim s = ""%string.
Proof.
  rewrite orb_true_iff, negb_true_iff, Z.eqb_eq. split.
  - intros [T|L].
    + destruct s; [reflexivity | discriminate].
    + destruct (Str.trim s); [reflexivity | simpl in L; lia].
  - intros ->. now right.
Qed.

Lemma isIataCode_length (s : string) :
  isIataCode s = true -> String.length s = 3%nat.
Proof.
  destruct s as [|a [|b [|c [|d s]]]]; simpl; try discriminate; reflexivity.
Qed.

(** C5: the rules of [getCityCode] in order.  Empty or blank input
    gives ["NYC"]; fewer than three characters after trimming gives [null];
    exactly three letters give the normalized input upper-cased; an own
    property of the table gives its code; otherwise the first entry, in
    table order, related to the input by a prefix gives its code, and no
    such entry gives [null].  The rule for the table holds for the table's
    own properties only: the lookup [CITY_CODES[normalized]] also finds the
    members inherited from [Object.prototype], and for such an input the
    function returns that member, as for ["constructor"], where the
    documented result ([string|null]) is [null]. *)
Theorem getCityCode_rules (s : string) :
  let normalized := Str.trim (Str.toLowerCase s) in
  let related (entry : string * string) :=
    Str.startsWith (fst entry) normalized
    || Str.startsWith normalized (fst entry) in
  getCityCode None = Some (Code "NYC")
  /\ (Str.trim s = ""%string -> getCityCode (Some s) = Some (Code "NYC"))
  /\ (Str.trim s <> ""%string -> (String.length normalized < 3)%nat ->
      getCityCode (Some s) = None)
  /\ (Str.trim s <> ""%string -> isIataCode normalized = true ->
      getCityCode (Some s) = Some (Code (Str.toUpperCase normalized)))
  /\ (Str.trim s <> ""%string -> (3 <= String.length normalized)%nat ->
      isIataCode normalized = false ->
      match own_property CITY_CODES normalized with
      | Some code => getCityCode (Some s) = Some (Code code)
      | None =>
          if arr_includes Object_prototype normalized then
            getCityCode (Some s) = Some (Inherited normalized)
          else
            match getCityCode (Some s) with
            | Some (Code code) =>
                exists pre city post,
                  CITY_CODES = (pre ++ (city, code) :: post)%list
                  /\ related (city, code) = true
                  /\ forall e, In e pre -> related e = false
            | Some (Inherited _) => False
            | None => forall e, In e CITY_CODES -> related e = false
            end
      end)
  /\ getCityCode (Some "") = Some (Code "NYC")
  /\ getCityCode (Some "xy") = None
  /\ getCityCode (Some "par") = Some (Code "PAR")
  /\ getCityCode (Some "zzzznotacity") = None
  /\ getCityCode (Some "constructor") = Some (Inherited "constructor").
Proof.
  intros normalized related.
  assert (Hnot : Str.trim s <> ""%string ->
            negb (Str.truthy s)
            || (Z.of_nat (String.length (Str.trim s)) =? 0) = false).
  { intros N. apply not_true_iff_false. now rewrite trim_empty_test. }
  repeat match goal with |- _ /\ _ => split end; try reflexivity.
  - intros E. unfold getCityCode.
    now rewrite (proj2 (trim_empty_test s) E).
  - intros N L. unfold getCityCode. rewrite (Hnot N). fold normalized.
    replace (Z.of_nat (String.length normalized) <? 3) with true
      by (symmetry; apply Z.ltb_lt; lia).
    now destruct (find _ CITY_CODES).
  - intros N I. unfold getCityCode. rewrite (Hnot N). fold normalized.
    rewrite (isIataCode_length _ I). cbn [Z.of_nat Z.ltb Z.compare Pos.of_succ_nat
      Pos.succ Pos.compare Pos.compare_cont]. now rewrite I.
  - intros N L I. unfold getCityCode. rewrite (Hnot N). fold normalized.
    replace (Z.of_nat (String.length normalized) <? 3) with false
      by (symmetry; apply Z.ltb_ge; lia).
    rewrite I. unfold get_CITY_CODES.
    destruct (own_property CITY_CODES normalized) as [code|]; [reflexivity|].
    destruct (arr_includes Object_prototype normalized); [reflexivity|].
    pose proof (find_first related CITY_CODES) as F.
    unfold partialMatch. fold related.
    destruct (find related CITY_CODES) as [[city code]|].
    + destruct F as (pre & post & E & R & Hpre).
      now exists pre, city, post.
    + exact F.
Qed.

Lemma getCityCode_rules_witness :
  getCityCode (Some " Paris ") = Some (Code "PAR")
  /\ getCityCode (Some " x ") = None
  /\ getCityCode (Some " Del") = Some (Code "DEL")
  /\ getCityCode (Some "   ") = Some (Code "NYC").
Proof.
  destruct (getCityCode_rules " Paris ") as (_ & _ & _ & _ & H5 & _).
  destruct (getCityCode_rules " x ") as (_ & _ & H3 & _).
  destruct (getCityCode_rules " Del") as (_ & _ & _ & H4 & _).
  destruct (getCityCode_rules "   ") as (_ & H2 & _).
  split; [|split; [|split]].
  - cbv zeta in H5.
    specialize (H5 ltac:(discriminate) ltac:(vm_compute; lia) eq_refl).
    exact H5.
  - apply H3; [discriminate | vm_compute; lia].
  - apply H4; [discriminate | reflexivity].
  - apply H2. reflexivity.
Defined.

(** ** Pagination *)

Lemma slice_nonneg {A : Type} (l : list A) (a b : Z) :
  0 <= a -> a <= b ->
  slice l a b = firstn (Z.to_nat (b - a)) (skipn (Z.to_nat a) l).
Proof.
  intros Ha Hab. unfold slice.
  replace (a <? 0) with false by (symmetry; apply Z.ltb_ge; lia).
  replace (b <? 0) with false by (symmetry; apply Z.ltb_ge; lia).
  destruct (Z_lt_ge_dec a (Z.of_nat (List.length l))) as [Hlt|Hge].
  - rewrite (Z.min_l a) by lia.
    destruct (Z_le_gt_dec b (Z.of_nat (List.length l))) as [Hb|Hb].
    + now rewrite Z.min_l by lia.
    + rewrite Z.min_r by lia.
      rewrite !firstn_all2; [reflexivity | |]; rewrite length_skipn; lia.
  - rewrite (Z.min_r a) by lia.
    rewrite !skipn_all2 by lia. now rewrite !firstn_nil.
Qed.

Lemma paginate_spec (all : list Hotel) (p : Z) :
  1 <= p ->
  hotels (paginate all p)
  = firstn 12 (skipn (Z.to_nat ((p - 1) * 12)) all)
  /\ total (paginate all p) = Z.of_nat (List.length all)
  /\ page (paginate all p) = p
  /\ (hasMore (paginate all p) = true
      <-> (p - 1) * 12 + 12 < Z.of_nat (List.length all))
  /\ (hasMore (paginate all p) = true <-> p * 12 < Z.of_nat (List.length all))
  /\ (Z.of_nat (List.length all) <= (p - 1) * 12 -> hotels (paginate all p) = []).
Proof.
  intros Hp. unfold paginate, HOTELS_PER_PAGE. cbn [hotels total page hasMore].
  rewrite slice_nonneg by lia.
  replace (Z.to_nat ((p - 1) * 12 + 12 - (p - 1) * 12)) with 12%nat by lia.
  repeat match goal with |- _ /\ _ => split end;
    rewrite ?Z.ltb_lt; try reflexivity; try lia.
  intros H. rewrite skipn_all2 by lia. reflexivity.
Qed.

(** C4: in mock mode and for [page >= 1] the search returns the slice
    [[start, end)] of the filtered and sorted catalog with
    [start = (page-1)*12] and [end = start+12]; [total] is the length of the
    whole set, [page] echoes the request, [hasMore] holds iff [end < total],
    that is iff [page*12 < total], and a page past the end yields no hotels;
    the module state is left as it was. *)
Theorem mock_search_paginates (env : Env) (o : Oracle) (f : SearchFilters)
  (p : Z) (st : State) :
  shouldUseMockData env = true -> 1 <= p ->
  let all := sortHotels (localeCompare env) (filterHotels (mockHotels env) f)
                        (sortBy f) in
  let r := fst (searchHotels env o f p st) in
  snd (searchHotels env o f p st) = st
  /\ hotels r = firstn 12 (skipn (Z.to_nat ((p - 1) * 12)) all)
  /\ total r = Z.of_nat (List.length all)
  /\ page r = p
  /\ (hasMore r = true <-> (p - 1) * 12 + 12 < total r)
  /\ (hasMore r = true <-> p * 12 < total r)
  /\ (total r <= (p - 1) * 12 -> hotels r = []).
Proof.
  intros Hmock Hp all r.
  assert (E : searchHotels env o f p st = (paginate all p, st)).
  { unfold searchHotels, searchHotels_try. now rewrite Hmock. }
  subst r. rewrite E. cbn [fst snd].
  split; [reflexivity|].
  destruct (paginate_spec all p Hp) as (H1 & H2 & H3 & H4 & H5 & H6).
  rewrite H2.
  repeat match goal with |- _ /\ _ => split end; assumption.
Qed.

Lemma mock_search_paginates_witness :
  List.length (hotels (fst (searchHotels mockEnv (sampleOracle 0 [])
                                          (locationFilters "") 2 initialState)))
  = 2%nat
  /\ hasMore (fst (searchHotels mockEnv (sampleOracle 0 [])
                                (locationFilters "") 2 initialState)) = false.
Proof.
  destruct (mock_search_paginates mockEnv (sampleOracle 0 [])
              (locationFilters "") 2 initialState eq_refl ltac:(lia))
    as (_ & Hh & Ht & _ & Hm & _).
  split.
  - rewrite Hh. reflexivity.
  - apply not_true_iff_false. rewrite Hm, Ht. vm_compute. discriminate.
Defined.

(** ** Orchestrator: the unresolved location *)

(** C8 (as amended): in live mode, when [getCityCode] returns [null] for
    [filters.location], the search filters, sorts and paginates the static
    catalog, returning the requested page of that set with [page] echoing
    the request; no request is sent and the state is unchanged. *)
Theorem unresolved_location_falls_back (env : Env) (o : Oracle)
  (f : SearchFilters) (p : Z) (st : State) :
  shouldUseMockData env = false ->
  getCityCode (f_location f) = None ->
  searchHotels env o f p st
  = (paginate (sortHotels (localeCompare env)
                          (filterHotels (mockHotels env) f) (sortBy f)) p, st)
  /\ page (fst (searchHotels env o f p st)) = p.
Proof.
  intros Hlive Hnone.
  assert (E : searchHotels env o f p st = (paginate (mockResults env f) p, st)).
  { unfold searchHotels, searchHotels_try. now rewrite Hlive, Hnone. }
  rewrite E. split; reflexivity.
Qed.

Lemma unresolved_location_falls_back_witness :
  page (fst (searchHotels liveEnv (sampleOracle 0 [])
                          (locationFilters "zzzznotacity") 3 initialState)) = 3.
Proof.
  apply (unresolved_location_falls_back liveEnv (sampleOracle 0 [])
           (locationFilters "zzzznotacity") 3 initialState); reflexivity.
Defined.

(** C8 (as stated) fails: on the unresolved path the result's page is the
    requested page, here 2, not a reset value. *)
Lemma unresolved_location_echoes_page :
  shouldUseMockData liveEnv = false
  /\ getCityCode (f_location (locationFilters "xy")) = None
  /\ page (fst (searchHotels liveEnv (sampleOracle 0 [])
                             (locationFilters "xy") 2 initialState)) = 2
  /\ page (fst (searchHotels liveEnv (sampleOracle 0 [])
                             (locationFilters "xy") 2 initialState)) <> 1.
Proof.
  repeat split. discriminate.
Qed.

(** ** Orchestrator: the number of guests *)

(** C10: two filters objects that differ only in [guests] give the same
    result and leave the same state, for every environment, page, state and
    outside world: [guests] is read nowhere. *)
Theorem guests_do_not_matter (env : Env) (o : Oracle) (p : Z) (st : State)
  (loc ci co : option string) (g1 g2 mn mx rt : option number)
  (am : option (list string)) (sb : option string) :
  searchHotels env o
    {| f_location := loc; checkIn := ci; checkOut := co; guests := g1;
       minPrice := mn; maxPrice := mx; f_rating := rt; f_amenities := am;
       sortBy := sb |} p st
  = searchHotels env o
      {| f_location := loc; checkIn := ci; checkOut := co; guests := g2;
         minPrice := mn; maxPrice := mx; f_rating := rt; f_amenities := am;
         sortBy := sb |} p st.
Proof.
  reflexivity.
Qed.

(** ** The monad and the request log *)

Lemma Mono_ret {A} (a : A) : Mono (ret a).
Proof. intros st. simpl. lia. Qed.

Lemma Mono_throw {A} (e : Error) : Mono (@throw A e).
Proof. intros st. unfold sent. simpl. lia. Qed.

Lemma Mono_get : Mono get.
Proof. intros st. simpl. lia. Qed.

Lemma Mono_set_token (t : option string) (x : Z) : Mono (set_token t x).
Proof. intros st. unfold sent. simpl. lia. Qed.

Lemma Mono_set_searchCache (c : SearchCache) : Mono (set_searchCache c).
Proof. intros st. unfold sent. simpl. lia. Qed.

Lemma Sends_fetch {A} (r : Request) (resp : option (Response A)) :
  Sends (fetch r resp).
Proof. intros st. unfold sent, fetch. destruct resp; simpl; lia. Qed.

Lemma Sends_Mono {A} (m : Async A) : Sends m -> Mono m.
Proof. intros H st. specialize (H st). lia. Qed.

Lemma Mono_bind {A B} (m : Async A) (k : A -> Async B) :
  Mono m -> (forall a, Mono (k a)) -> Mono (bind m k).
Proof.
  intros Hm Hk st. unfold bind. specialize (Hm st).
  destruct (m st) as [[a|e] st']; simpl in *; [|assumption].
  specialize (Hk a st'). lia.
Qed.

Lemma Sends_bind {A B} (m : Async A) (k : A -> Async B) :
  Sends m -> (forall a, Mono (k a)) -> Sends (bind m k).
Proof.
  intros Hm Hk st. unfold bind. specialize (Hm st).
  destruct (m st) as [[a|e] st']; simpl in *; [|assumption].
  specialize (Hk a st'). lia.
Qed.

Lemma Mono_try_catch {A} (m : Async A) (h : Error -> Async A) :
  Mono m -> (forall e, Mono (h e)) -> Mono (try_catch m h).
Proof.
  intros Hm Hh st. unfold try_catch. specialize (Hm st).
  destruct (m st) as [[a|e] st']; simpl in *; [assumption|].
  specialize (Hh e st'). lia.
Qed.

Lemma Mono_if {A} (b : bool) (m1 m2 : Async A) :
  Mono m1 -> Mono m2 -> Mono (if b then m1 else m2).
Proof. now destruct b. Qed.

Create HintDb mono.

#[local] Hint Resolve Mono_ret Mono_throw Mono_get Mono_set_token
  Mono_set_searchCache Sends_fetch Sends_Mono Mono_bind Mono_try_catch
  Mono_if : mono.

Lemma Mono_getAmadeusToken (tc : TokenCall) : Mono (getAmadeusToken tc).
Proof.
  unfold getAmadeusToken. apply Mono_bind; [auto with mono|]. intros st.
  apply Mono_if; [auto with mono|].
  apply Mono_bind; [auto with mono|].
  intros [b| |[t x]]; [destruct b| |]; auto with mono.
Qed.

Lemma Mono_fetchHotelOffers (o : Oracle) (ids : list string)
  (ci co : option string) : Mono (fetchHotelOffers o ids ci co).
Proof.
  unfold fetchHotelOffers. apply Mono_if; [auto with mono|].
  apply Mono_bind; [apply Mono_getAmadeusToken|]. intros _.
  apply Mono_try_catch; [|auto with mono].
  apply Mono_bind; [auto with mono|].
  intros [b| |data]; auto with mono.
Qed.

#[local] Hint Resolve Mono_getAmadeusToken Mono_fetchHotelOffers : mono.

(** ** Token acquisition *)

Lemma getAmadeusToken_acquires (tc : TokenCall) (st : State) :
  acquiresToken tc st = true ->
  exists t st',
    getAmadeusToken tc st = (Return t, st')
    /\ searchCache st' = searchCache st
    /\ thrown st' = thrown st
    /\ (sent st <= sent st')%nat.
Proof.
  unfold acquiresToken, getAmadeusToken, bind, get. intros H.
  destruct (opt_truthy (amadeusToken st) && (tc_now tc <? tokenExpiresAt st)).
  - exists (amadeusToken st), st.
    split; [reflexivity|]. split; [reflexivity|]. split; [reflexivity|]. lia.
  - simpl in H. destruct (tc_response tc) as [[b| |[t x]]|]; try discriminate.
    eexists _, _. unfold sent. simpl.
    split; [reflexivity|]. split; [reflexivity|]. split; [reflexivity|].
    simpl. lia.
Qed.

Lemma getAmadeusToken_fails (tc : TokenCall) (st : State) :
  acquiresToken tc st = false ->
  exists e st',
    getAmadeusToken tc st = (Threw e, st')
    /\ searchCache st' = searchCache st
    /\ (sent st < sent st')%nat.
Proof.
  unfold acquiresToken, getAmadeusToken, bind, get. intros H.
  destruct (opt_truthy (amadeusToken st) && (tc_now tc <? tokenExpiresAt st));
    [discriminate|].
  simpl in H. unfold sent.
  destruct (tc_response tc) as [[[|]| |[t x]]|]; try discriminate;
    eexists _, _; simpl;
    (split; [reflexivity|]; split; [reflexivity|]; simpl; lia).
Qed.

(** ** The live branch, path by path *)

Lemma sortHotels_nil (lc : string -> string -> number) (k : option string) :
  sortHotels lc [] k = [].
Proof.
  unfold sortHotels.
  repeat match goal with |- context [if ?b then _ else _] => destruct b end;
    reflexivity.
Qed.

Lemma bind_eq {A B} (m : Async A) (k : A -> Async B) (st : State) :
  bind m k st
  = match m st with
    | (Return a, st') => k a st'
    | (Threw e, st') => (Threw e, st')
    end.
Proof. reflexivity. Qed.

(** The enrichment step always completes: whatever is thrown while the
    offers are fetched is caught on the spot. *)
Lemma enrichment_returns (o : Oracle) (ids : list string)
  (ci co : option string) (st : State) :
  exists offersMap st',
    (if 0 <? Z.of_nat (List.length ids) then
       try_catch
         (offers <- fetchHotelOffers o ids ci co ;;
          ret (build_offersMap offers))
         (fun err => ret emptyOffersMap)
     else ret emptyOffersMap) st = (Return offersMap, st')
    /\ (sent st <= sent st')%nat.
Proof.
  destruct (0 <? Z.of_nat (List.length ids)).
  - assert (M : Mono (offers <- fetchHotelOffers o ids ci co ;;
                      ret (build_offersMap offers)))
      by auto with mono.
    specialize (M st). unfold try_catch.
    destruct ((offers <- fetchHotelOffers o ids ci co ;;
               ret (build_offersMap offers)) st) as [[m|e] st'].
    + now exists m, st'.
    + now exists emptyOffersMap, st'.
  - exists emptyOffersMap, st. split; [reflexivity | lia].
Qed.

Lemma live_hit (env : Env) (o : Oracle) (f : SearchFilters) (p : Z)
  (st : State) (c : CityCode) :
  shouldUseMockData env = false ->
  getCityCode (f_location f) = Some c ->
  isCacheValid (now_cache o) f st = true ->
  searchHotels env o f p st = (paginate (c_hotels (searchCache st)) p, st).
Proof.
  intros Hlive Hc Hv. unfold searchHotels, searchHotels_try.
  rewrite Hlive, Hc, bind_eq. cbn [get]. now rewrite Hv.
Qed.

Lemma live_miss_token_fails (env : Env) (o : Oracle) (f : SearchFilters)
  (p : Z) (st : State) (c : CityCode) :
  shouldUseMockData env = false ->
  getCityCode (f_location f) = Some c ->
  isCacheValid (now_cache o) f st = false ->
  acquiresToken (auth1 o) st = false ->
  exists e st',
    searchHotels_try env o f p st = (Threw e, st')
    /\ searchCache st' = searchCache st
    /\ (sent st < sent st')%nat.
Proof.
  intros Hlive Hc Hv Ht. unfold searchHotels_try.
  rewrite Hlive, Hc, bind_eq. cbn [get]. rewrite Hv, bind_eq.
  destruct (getAmadeusToken_fails _ _ Ht) as (e & st' & E & Hcache & Hsent).
  rewrite E. now exists e, st'.
Qed.

Lemma live_miss_catalog_fails (env : Env) (o : Oracle) (f : SearchFilters)
  (p : Z) (st : State) (c : CityCode) :
  shouldUseMockData env = false ->
  getCityCode (f_location f) = Some c ->
  isCacheValid (now_cache o) f st = false ->
  acquiresToken (auth1 o) st = true ->
  (forall data, catalog o <> Some (Ok data)) ->
  exists st',
    searchHotels env o f p st = (firstPage (mockResults env f), st')
    /\ searchCache st' = searchCache st
    /\ (sent st < sent st')%nat.
Proof.
  intros Hlive Hc Hv Ht Hcat. unfold searchHotels, searchHotels_try.
  rewrite Hlive, Hc, bind_eq. cbn [get]. rewrite Hv, bind_eq.
  destruct (getAmadeusToken_acquires _ _ Ht) as (t & st1 & E & Hcache & _ & Hsent).
  rewrite E, bind_eq. unfold fetch, sent in *.
  destruct (catalog o) as [[[|]| |data]|]; cbn;
    try (eexists; split; [reflexivity|]; split; [assumption | simpl; lia]).
  now elim (Hcat data).
Qed.

Lemma live_miss_success (env : Env) (o : Oracle) (f : SearchFilters)
  (p : Z) (st : State) (c : CityCode) (data : list AmadeusHotel) :
  shouldUseMockData env = false ->
  getCityCode (f_location f) = Some c ->
  isCacheValid (now_cache o) f st = false ->
  acquiresToken (auth1 o) st = true ->
  catalog o = Some (Ok data) ->
  exists hs st',
    searchHotels env o f p st = (paginate hs p, st')
    /\ searchCache st'
       = {| key := Some (getCacheKey f); c_hotels := hs;
            timestamp := now_write o; ttl := 5 * 60 * 1000 |}
    /\ (sent st < sent st')%nat
    /\ (data = [] -> hs = []).
Proof.
  intros Hlive Hc Hv Ht Hcat. unfold searchHotels, searchHotels_try.
  rewrite Hlive, Hc, bind_eq. cbn [get]. rewrite Hv, bind_eq.
  destruct (getAmadeusToken_acquires _ _ Ht) as (t & st1 & E & _ & _ & Hsent).
  rewrite E, bind_eq, Hcat. cbn [fetch]. rewrite bind_eq.
  match goal with
  | |- context [(if 0 <? Z.of_nat (List.length ?ids) then _ else _) ?s] =>
      destruct (enrichment_returns o ids (checkIn f) (checkOut f) s)
        as (om & st2 & E2 & Hsent2)
  end.
  rewrite E2. cbn [bind set_searchCache ret].
  eexists _, _. split; [reflexivity|]. split; [reflexivity|].
  split.
  - unfold sent in *. cbn [requests List.length] in *. lia.
  - intros ->. apply sortHotels_nil.
Qed.

(** ** Cache coherence *)

Lemma getCityCode_orElse (loc : option string) :
  getCityCode loc = getCityCode (Some (Str.orElse loc "")).
Proof.
  destruct loc as [s|]; [|reflexivity].
  unfold Str.orElse. destruct (Str.truthy s) eqn:T; [reflexivity|].
  unfold Str.truthy in T. apply negb_false_iff, String.eqb_eq in T. now subst.
Qed.

Lemma same_key_same_city (f1 f2 : SearchFilters) :
  key_eqb (getCacheKey f1) (getCacheKey f2) = true ->
  getCityCode (f_location f2) = getCityCode (f_location f1).
Proof.
  unfold key_eqb. rewrite !andb_true_iff.
  intros [[[[[[[H _] _] _] _] _] _] _].
  apply String.eqb_eq in H. cbn [getCacheKey k_location] in H.
  now rewrite (getCityCode_orElse (f_location f1)),
              (getCityCode_orElse (f_location f2)), H.
Qed.

Lemma length_zero_nil {A : Type} (l : list A) :
  Z.of_nat (List.length l) = 0 -> l = [].
Proof. destruct l; [reflexivity | simpl; lia]. Qed.

(** A live search of a resolved location that misses the cache sends at
    least one request. *)
Lemma live_miss_sends (env : Env) (o : Oracle) (f : SearchFilters) (p : Z)
  (st : State) (c : CityCode) :
  shouldUseMockData env = false ->
  getCityCode (f_location f) = Some c ->
  isCacheValid (now_cache o) f st = false ->
  (sent st < sent (snd (searchHotels env o f p st)))%nat.
Proof.
  intros Hlive Hc Hv.
  destruct (acquiresToken (auth1 o) st) eqn:Ht.
  - destruct (catalog o) as [[b| |data]|] eqn:Hcat.
    1, 2, 4:
      destruct (live_miss_catalog_fails env o f p st c Hlive Hc Hv Ht)
        as (st' & E & _ & Hs); [rewrite Hcat; congruence | now rewrite E].
    destruct (live_miss_success env o f p st c data Hlive Hc Hv Ht Hcat)
      as (hs & st' & E & _ & Hs & _).
    now rewrite E.
  - destruct (live_miss_token_fails env o f p st c Hlive Hc Hv Ht)
      as (e & st' & E & _ & Hs).
    unfold searchHotels. now rewrite E.
Qed.

(** C1 (as amended): in live mode, when a search of a resolved location
    leaves in the cache slot a non-empty result set under its key, the next
    search with identical normalized filters, with no [clearSearchCache] in
    between and within five minutes of the slot's timestamp, sends no
    request: it returns the requested page of the cached set as it is,
    without filtering or sorting, and changes nothing in the state. *)
Theorem cache_hit_skips_fetch (env : Env) (o1 o2 : Oracle)
  (f1 f2 : SearchFilters) (p1 p2 : Z) (st0 : State)
  (hs : list Hotel) (t : Z) :
  let st1 := snd (searchHotels env o1 f1 p1 st0) in
  shouldUseMockData env = false ->
  getCityCode (f_location f1) <> None ->
  searchCache st1
  = {| key := Some (getCacheKey f1); c_hotels := hs; timestamp := t;
       ttl := 5 * 60 * 1000 |} ->
  hs <> [] ->
  key_eqb (getCacheKey f1) (getCacheKey f2) = true ->
  now_cache o2 - t < 5 * 60 * 1000 ->
  searchHotels env o2 f2 p2 st1 = (paginate hs p2, st1)
  /\ requests (snd (searchHotels env o2 f2 p2 st1)) = requests st1.
Proof.
  intros st1 Hlive Hc Hslot Hne Hkey Httl.
  assert (Hc2 : exists c, getCityCode (f_location f2) = Some c).
  { rewrite (same_key_same_city _ _ Hkey).
    destruct (getCityCode (f_location f1)) as [c|]; [now exists c | congruence]. }
  destruct Hc2 as [c Hc2].
  assert (Hv : isCacheValid (now_cache o2) f2 st1 = true).
  { unfold isCacheValid. rewrite Hslot. cbn [key c_hotels timestamp ttl].
    rewrite Hkey. destruct hs; [congruence|].
    apply andb_true_iff. split; [reflexivity|]. apply Z.ltb_lt. exact Httl. }
  rewrite (live_hit env o2 f2 p2 st1 c Hlive Hc2 Hv), Hslot.
  split; reflexivity.
Qed.

Lemma cache_hit_skips_fetch_witness :
  let st1 := snd (searchHotels liveEnv
                    (sampleOracle 1000 [remoteHotel "H1"; remoteHotel "H2"])
                    (locationFilters "paris") 1 initialState) in
  requests st1 = [HotelOffers ["H1"; "H2"] None None;
                  HotelsByCity (Code "PAR"); TokenRequest]
  /\ requests (snd (searchHotels liveEnv (sampleOracle 200000 [])
                                 (locationFilters "paris") 2 st1))
     = requests st1.
Proof.
  split; [reflexivity|].
  eapply (cache_hit_skips_fetch liveEnv
            (sampleOracle 1000 [remoteHotel "H1"; remoteHotel "H2"])
            (sampleOracle 200000 []) (locationFilters "paris")
            (locationFilters "paris") 1 2 initialState).
  - reflexivity.
  - discriminate.
  - reflexivity.
  - discriminate.
  - reflexivity.
  - reflexivity.
Defined.

(** C1 (as stated) fails when the first call's fetch brought no hotel: the
    entry it wrote is never valid, so the second call, with the same
    filters and one second later, queries the catalog again. *)
Lemma second_call_refetches_after_empty :
  let f := locationFilters "paris" in
  let st1 := snd (searchHotels liveEnv (sampleOracle 1000 []) f 1 initialState) in
  let st2 := snd (searchHotels liveEnv (sampleOracle 2000 []) f 1 st1) in
  shouldUseMockData liveEnv = false
  /\ key (searchCache st1) = Some (getCacheKey f)
  /\ now_cache (sampleOracle 2000 []) - timestamp (searchCache st1)
     < 5 * 60 * 1000
  /\ requests st1 = [HotelsByCity (Code "PAR"); TokenRequest]
  /\ requests st2
     = [HotelsByCity (Code "PAR"); HotelsByCity (Code "PAR"); TokenRequest]
  /\ requests st2 <> requests st1.
Proof.
  cbv zeta. split; [reflexivity|]. split; [reflexivity|].
  split; [reflexivity|]. split; [reflexivity|]. split; [reflexivity|].
  discriminate.
Qed.

(** C9: the cache is valid only with a non-empty hotels list.  A live
    search that misses the cache and whose fetch succeeds with zero hotels
    writes an entry with the filters' key and an empty list; that entry is
    never valid, whatever the clock, and the next search with the same
    normalized filters sends a request again. *)
Theorem empty_cache_never_hits (env : Env) (o1 o2 : Oracle)
  (f1 f2 : SearchFilters) (p1 p2 : Z) (st0 : State) :
  let st1 := snd (searchHotels env o1 f1 p1 st0) in
  (forall now f st,
      isCacheValid now f st = true -> c_hotels (searchCache st) <> [])
  /\ (shouldUseMockData env = false ->
      getCityCode (f_location f1) <> None ->
      isCacheValid (now_cache o1) f1 st0 = false ->
      acquiresToken (auth1 o1) st0 = true ->
      (exists data, catalog o1 = Some (Ok data)) ->
      total (fst (searchHotels env o1 f1 p1 st0)) = 0 ->
      key_eqb (getCacheKey f1) (getCacheKey f2) = true ->
      searchCache st1
      = {| key := Some (getCacheKey f1); c_hotels := [];
           timestamp := now_write o1; ttl := 5 * 60 * 1000 |}
      /\ isCacheValid (now_cache o2) f2 st1 = false
      /\ (sent st1 < sent (snd (searchHotels env o2 f2 p2 st1)))%nat).
Proof.
  intros st1. split.
  - intros now f st H E. unfold isCacheValid in H. rewrite E in H.
    cbn in H. now rewrite andb_false_r in H.
  - intros Hlive Hc Hv Ht [data Hcat] Htot Hkey.
    destruct (getCityCode (f_location f1)) as [c|] eqn:Hc1; [|congruence].
    destruct (live_miss_success env o1 f1 p1 st0 c data Hlive Hc1 Hv Ht Hcat)
      as (hs & st' & E & Hslot & _ & _).
    subst st1. rewrite E in *. cbn [fst snd] in *.
    apply length_zero_nil in Htot. subst hs.
    assert (Hv2 : isCacheValid (now_cache o2) f2 st' = false).
    { unfold isCacheValid. rewrite Hslot. cbn [c_hotels List.length].
      now rewrite andb_false_r. }
    split; [assumption|]. split; [assumption|].
    apply (live_miss_sends env o2 f2 p2 st' c Hlive); [|assumption].
    now rewrite (same_key_same_city _ _ Hkey).
Qed.

Lemma empty_cache_never_hits_witness :
  let f := locationFilters "paris" in
  let st1 := snd (searchHotels liveEnv (sampleOracle 1000 []) f 1 initialState) in
  isCacheValid 2000 f st1 = false
  /\ (sent st1 < sent (snd (searchHotels liveEnv (sampleOracle 2000 []) f 1 st1)))%nat.
Proof.
  cbv zeta.
  destruct (empty_cache_never_hits liveEnv (sampleOracle 1000 [])
              (sampleOracle 2000 []) (locationFilters "paris")
              (locationFilters "paris") 1 1 initialState) as [_ H].
  destruct H as (_ & Hv & Hs).
  - reflexivity.
  - discriminate.
  - reflexivity.
  - reflexivity.
  - now exists [].
  - reflexivity.
  - reflexivity.
  - split; [exact Hv | exact Hs].
Defined.

(** ** Error handling *)

(** Whatever happens, the result is a page of some list: the requested
    page, or the first page built by a fallback. *)
Lemma searchHotels_shape (env : Env) (o : Oracle) (f : SearchFilters)
  (p : Z) (st : State) :
  exists all,
    fst (searchHotels env o f p st) = paginate all p
    \/ fst (searchHotels env o f p st) = firstPage all.
Proof.
  destruct (shouldUseMockData env) eqn:Hlive.
  { exists (mockResults env f). left.
    unfold searchHotels, searchHotels_try. now rewrite Hlive. }
  destruct (getCityCode (f_location f)) as [c|] eqn:Hc.
  2: { exists (mockResults env f). left.
       unfold searchHotels, searchHotels_try. now rewrite Hlive, Hc. }
  destruct (isCacheValid (now_cache o) f st) eqn:Hv.
  { exists (c_hotels (searchCache st)). left.
    now rewrite (live_hit env o f p st c Hlive Hc Hv). }
  destruct (acquiresToken (auth1 o) st) eqn:Ht.
  - destruct (catalog o) as [[b| |data]|] eqn:Hcat.
    1, 2, 4:
      destruct (live_miss_catalog_fails env o f p st c Hlive Hc Hv Ht)
        as (st' & E & _); [rewrite Hcat; congruence|];
      exists (mockResults env f); right; now rewrite E.
    destruct (live_miss_success env o f p st c data Hlive Hc Hv Ht Hcat)
      as (hs & st' & E & _).
    exists hs. left. now rewrite E.
  - destruct (live_miss_token_fails env o f p st c Hlive Hc Hv Ht)
      as (e & st' & E & _).
    exists (mockResults env f). right. unfold searchHotels. now rewrite E.
Qed.

Lemma sortHotels_perm (lc : string -> string -> number) (hs : list Hotel)
  (k : option string) : Permutation (sortHotels lc hs k) hs.
Proof.
  unfold sortHotels.
  repeat match goal with |- context [if ?b then _ else _] => destruct b end;
    try apply sort_perm; reflexivity.
Qed.

Lemma slice_In {A : Type} (l : list A) (a b : Z) (x : A) :
  In x (slice l a b) -> In x l.
Proof.
  unfold slice. intros H.
  set (k := Z.to_nat _) in H. set (m := Z.to_nat _) in H.
  rewrite <- (firstn_skipn m l). apply in_or_app. right.
  rewrite <- (firstn_skipn k (skipn m l)). apply in_or_app. now left.
Qed.

Lemma uniqueBy_In (l : list AmadeusHotel) (seen : list (option string))
  (x : AmadeusHotel) : In x (uniqueBy seen l) -> In x l.
Proof.
  revert seen. induction l as [|h l IH]; intros seen; [intros []|].
  cbn [uniqueBy]. destruct (existsb _ seen).
  - intros H. right. now apply (IH seen).
  - intros [<-|H]; [now left | right; now apply (IH _ H)].
Qed.

Lemma mapi_from_In {A B : Type} (g : A -> nat -> B) (l : list A) (n : nat)
  (y : B) :
  In y (mapi_from n g l) -> exists x index, In x l /\ y = g x index.
Proof.
  revert n. induction l as [|x l IH]; intros n; [intros []|].
  cbn [mapi_from]. intros [<-|H].
  - exists x, n. split; [now left | reflexivity].
  - destruct (IH _ H) as (x' & index & Hx & E).
    exists x', index. split; [now right | exact E].
Qed.

(** The enrichment step, outcome by outcome: the offers map is built from
    the offers of a readable successful response when there are ids to ask
    for and a token, and is empty otherwise. *)
Lemma enrichment_exact (o : Oracle) (ids : list string)
  (ci co : option string) (st : State) :
  exists st',
    (if 0 <? Z.of_nat (List.length ids) then
       try_catch
         (offers <- fetchHotelOffers o ids ci co ;;
          ret (build_offersMap offers))
         (fun err => ret emptyOffersMap)
     else ret emptyOffersMap) st
    = (Return
         (build_offersMap
            (if (0 <? Z.of_nat (List.length ids)) && acquiresToken (auth2 o) st
             then match offers o with
                  | Some (Ok offers) => offers
                  | _ => []
                  end
             else [])), st').
Proof.
  destruct (0 <? Z.of_nat (List.length ids)) eqn:Hids; cbn [andb].
  2: { now exists st. }
  assert (Hne : (Z.of_nat (List.length ids) =? 0) = false).
  { apply Z.ltb_lt in Hids. apply Z.eqb_neq. lia. }
  unfold try_catch. rewrite bind_eq. unfold fetchHotelOffers. rewrite Hne.
  rewrite bind_eq.
  destruct (acquiresToken (auth2 o) st) eqn:Ht.
  - destruct (getAmadeusToken_acquires _ _ Ht) as (t & st1 & E & _).
    rewrite E. unfold try_catch, bind, fetch.
    destruct (offers o) as [[b| |data]|]; cbn; now eexists.
  - destruct (getAmadeusToken_fails _ _ Ht) as (e & st1 & E & _).
    rewrite E. now exists st1.
Qed.

(** The successful miss, exactly: the call returns the requested page of
    [remoteResults] and stores that set in the slot. *)
Lemma live_miss_success_exact (env : Env) (o : Oracle) (f : SearchFilters)
  (p : Z) (st : State) (c : CityCode) (data : list AmadeusHotel) :
  shouldUseMockData env = false ->
  getCityCode (f_location f) = Some c ->
  isCacheValid (now_cache o) f st = false ->
  acquiresToken (auth1 o) st = true ->
  catalog o = Some (Ok data) ->
  exists st',
    searchHotels env o f p st = (paginate (remoteResults env o f data st) p, st')
    /\ searchCache st'
       = {| key := Some (getCacheKey f);
            c_hotels := remoteResults env o f data st;
            timestamp := now_write o; ttl := 5 * 60 * 1000 |}.
Proof.
  intros Hlive Hc Hv Ht Hcat. unfold remoteResults, searchHotels, searchHotels_try.
  rewrite Hlive, Hc, bind_eq. cbn [get]. rewrite Hv, bind_eq.
  destruct (getAmadeusToken_acquires _ _ Ht) as (t & st1 & E & _).
  rewrite E, bind_eq, Hcat. cbn [fetch snd]. rewrite bind_eq.
  match goal with
  | |- context [(if 0 <? Z.of_nat (List.length ?ids) then _ else _) ?s] =>
      destruct (enrichment_exact o ids (checkIn f) (checkOut f) s)
        as (st2 & E2)
  end.
  rewrite E2. cbn [bind set_searchCache ret].
  eexists. split; reflexivity.
Qed.

(** C2 (as amended): [searchHotels] always returns a result, a page of
    some list of hotels.  Every
    error that leaves the [try] block is caught and answered by the first
    page of the filtered and sorted mock catalog, [page] being 1 whatever
    page was requested; this is what happens in live mode when the token
    cannot be acquired before the catalog query or when the catalog query
    does not bring a readable, successful response, and the cache is left
    as it was.  When the token is acquired and the catalog query succeeds,
    the call answers from the remote data, whatever is thrown while the
    offers are fetched: it returns the requested page of [remoteResults]
    (every hotel of it is the mapping of a hotel of the response and passes
    the filters other than the location), echoes the requested page and
    stores that set in the cache. *)
Theorem errors_fall_back (env : Env) (o : Oracle) (f : SearchFilters)
  (p : Z) (st : State) :
  let all := sortHotels (localeCompare env) (filterHotels (mockHotels env) f)
                        (sortBy f) in
  let fallback :=
    {| hotels := slice all 0 12; total := Z.of_nat (List.length all);
       page := 1; hasMore := Z.of_nat (List.length all) >? 12 |} in
  (exists results,
      fst (searchHotels env o f p st) = paginate results p
      \/ fst (searchHotels env o f p st) = firstPage results)
  /\ (forall e st',
      searchHotels_try env o f p st = (Threw e, st') ->
      searchHotels env o f p st = (fallback, st'))
  /\ (shouldUseMockData env = false ->
      getCityCode (f_location f) <> None ->
      isCacheValid (now_cache o) f st = false ->
      acquiresToken (auth1 o) st = false
      \/ (forall data, catalog o <> Some (Ok data)) ->
      fst (searchHotels env o f p st) = fallback
      /\ page (fst (searchHotels env o f p st)) = 1
      /\ hotels (fst (searchHotels env o f p st)) = firstn 12 all
      /\ searchCache (snd (searchHotels env o f p st)) = searchCache st)
  /\ (shouldUseMockData env = false ->
      getCityCode (f_location f) <> None ->
      isCacheValid (now_cache o) f st = false ->
      acquiresToken (auth1 o) st = true ->
      forall data, catalog o = Some (Ok data) ->
      fst (searchHotels env o f p st)
      = paginate (remoteResults env o f data st) p
      /\ page (fst (searchHotels env o f p st)) = p
      /\ (forall h, In h (hotels (fst (searchHotels env o f p st))) ->
            Passes (without_location f) h
            /\ exists item index offerData,
                 In item data /\ h = mapAmadeusHotel o item index offerData)
      /\ searchCache (snd (searchHotels env o f p st))
         = {| key := Some (getCacheKey f);
              c_hotels := remoteResults env o f data st;
              timestamp := now_write o; ttl := 5 * 60 * 1000 |}).
Proof.
  intros all fallback.
  assert (Hfb : firstPage (mockResults env f) = fallback) by reflexivity.
  assert (Hfirst : hotels fallback = firstn 12 all).
  { subst fallback. cbn [hotels]. rewrite slice_nonneg by lia.
    now rewrite skipn_O. }
  split; [apply searchHotels_shape|]. split; [|split].
  - intros e st' E. unfold searchHotels. now rewrite E.
  - intros Hlive Hc Hv Hfail.
    destruct (getCityCode (f_location f)) as [c|] eqn:Hc1; [|congruence].
    assert (H : exists st', searchHotels env o f p st = (fallback, st')
                            /\ searchCache st' = searchCache st).
    { destruct (acquiresToken (auth1 o) st) eqn:Ht.
      - destruct Hfail as [?|Hcat]; [discriminate|].
        destruct (live_miss_catalog_fails env o f p st c Hlive Hc1 Hv Ht Hcat)
          as (st' & E & Hcache & _).
        exists st'. now rewrite E, Hfb.
      - destruct (live_miss_token_fails env o f p st c Hlive Hc1 Hv Ht)
          as (e & st' & E & Hcache & _).
        exists st'. unfold searchHotels. now rewrite E, Hfb. }
    destruct H as (st' & E & Hcache). rewrite E. cbn [fst snd].
    repeat match goal with |- _ /\ _ => split end;
      [reflexivity | reflexivity | assumption | assumption].
  - intros Hlive Hc Hv Ht data Hcat.
    destruct (getCityCode (f_location f)) as [c|] eqn:Hc1; [|congruence].
    destruct (live_miss_success_exact env o f p st c data Hlive Hc1 Hv Ht Hcat)
      as (st' & E & Hslot).
    rewrite E. cbn [fst snd].
    split; [reflexivity|]. split; [reflexivity|]. split; [|exact Hslot].
    intros h Hh. cbn [paginate hotels] in Hh. apply slice_In in Hh.
    unfold remoteResults in Hh. cbv zeta in Hh.
    apply (Permutation_in _ (sortHotels_perm _ _ _)) in Hh.
    unfold filterHotels in Hh. apply filter_In in Hh. destruct Hh as [Hm Hk].
    split; [now apply keepHotel_spec|].
    apply mapi_from_In in Hm. destruct Hm as (item & index & Hitem & ->).
    eexists item, index, _. split; [|reflexivity].
    apply slice_In in Hitem. now apply uniqueBy_In in Hitem.
Qed.

Lemma errors_fall_back_witness :
  page (fst (searchHotels liveEnv authFailure (locationFilters "paris") 2
                          initialState)) = 1
  /\ fst (searchHotels liveEnv enrichmentAuthFailure
                       (locationFilters "paris") 2 staleTokenState)
     = paginate (remoteResults liveEnv enrichmentAuthFailure
                   (locationFilters "paris") [remoteHotel "H1"]
                   staleTokenState) 2.
Proof.
  destruct (errors_fall_back liveEnv authFailure (locationFilters "paris") 2
              initialState) as (_ & _ & H1 & _).
  destruct (errors_fall_back liveEnv enrichmentAuthFailure
              (locationFilters "paris") 2 staleTokenState) as (_ & _ & _ & H2).
  split.
  - apply H1; [reflexivity | discriminate | reflexivity | now left].
  - apply (H2 eq_refl ltac:(discriminate) eq_refl eq_refl
              [remoteHotel "H1"] eq_refl).
Defined.

(** C2 (as stated) fails for an error thrown while the offers are
    fetched: the cached token expires after the catalog query, the token
    endpoint refuses a new one, the authentication error is caught inside
    the enrichment step, and the call answers page 2 of the remote data. *)
Lemma enrichment_error_is_not_a_fallback :
  let f := locationFilters "paris" in
  let r := fst (searchHotels liveEnv enrichmentAuthFailure f 2 staleTokenState) in
  let st' := snd (searchHotels liveEnv enrichmentAuthFailure f 2 staleTokenState) in
  shouldUseMockData liveEnv = false
  /\ thrown st' = [AuthFailed]
  /\ page r = 2
  /\ total r = 1
  /\ total (firstPage (mockResults liveEnv f)) = 14
  /\ r <> firstPage (mockResults liveEnv f).
Proof.
  cbv zeta. split; [reflexivity|]. split; [reflexivity|].
  split; [reflexivity|]. split; [reflexivity|]. split; [reflexivity|].
  intros E. apply (f_equal page) in E. vm_compute in E. discriminate.
Qed.

(* ================================================================== *)
(** * Further properties *)

(** ** Placeholder images *)

Lemma toInt32_range (z : Z) : int32 (toInt32 z).
Proof.
  unfold int32, toInt32.
  pose proof (Z.mod_pos_bound (z + 2 ^ 31) (2 ^ 32) ltac:(lia)). lia.
Qed.

Lemma toInt32_id (z : Z) : int32 z -> toInt32 z = z.
Proof.
  unfold int32, toInt32. intros H. rewrite Z.mod_small; lia.
Qed.

Lemma toInt32_add_l (u v : Z) : toInt32 (toInt32 u + v) = toInt32 (u + v).
Proof.
  unfold toInt32. f_equal.
  replace ((u + 2 ^ 31) mod 2 ^ 32 - 2 ^ 31 + v + 2 ^ 31)
    with ((u + 2 ^ 31) mod 2 ^ 32 + v) by lia.
  rewrite Z.add_mod_idemp_l by lia. f_equal. lia.
Qed.

Lemma hashStep_formula (a b : Z) :
  int32 a -> hashStep a b = toInt32 (31 * a + b).
Proof.
  intros Ha. unfold hashStep. cbv zeta. rewrite Z.land_diag.
  rewrite (toInt32_id a Ha), Z.shiftl_mul_pow2 by lia.
  replace (toInt32 (a * 2 ^ 5) - a + b) with (toInt32 (a * 2 ^ 5) + (b - a)) by lia.
  rewrite toInt32_add_l. f_equal. lia.
Qed.

Lemma fold_hash_range (codes : list Z) (a : Z) :
  int32 a -> int32 (fold_left hashStep codes a).
Proof.
  revert a. induction codes as [|b codes IH]; intros a Ha; [exact Ha|].
  cbn [fold_left]. apply IH. unfold hashStep. apply toInt32_range.
Qed.

(** X1: the image hash is the 31-multiplier string hash wrapped to 32
    bits: empty text hashes to 0, appending a character [c] to a text of
    hash [h] gives [ToInt32(31*h + code c)], and every hash is a signed
    32-bit integer. *)
Theorem imageHash_polynomial (s : string) (c : ascii) :
  imageHash "" = 0
  /\ imageHash (s ++ String c "")
     = toInt32 (31 * imageHash s + Z.of_nat (nat_of_ascii c))
  /\ int32 (imageHash s).
Proof.
  assert (R : int32 (imageHash s)).
  { apply fold_hash_range. unfold int32. lia. }
  split; [reflexivity|]. split; [|exact R].
  unfold imageHash, charCodes in *.
  assert (E : list_ascii_of_string (s ++ String c "")
              = (list_ascii_of_string s ++ [c])%list).
  { clear R. induction s as [|d s IH]; [reflexivity|].
    cbn [append list_ascii_of_string]. now rewrite IH. }
  rewrite E, map_app, fold_left_app. cbn [map fold_left].
  now apply hashStep_formula.
Qed.

(** X2: [generateHotelImages] always returns three images of the pool,
    pairwise different, and never reads outside the pool; when [hotelId] is
    a non-empty string the hotel's name plays no part. *)
Theorem generateHotelImages_three_distinct (hotelId hotelName : option string) :
  (exists a b c,
      generateHotelImages hotelId hotelName = [Some a; Some b; Some c]
      /\ In a hotelImages /\ In b hotelImages /\ In c hotelImages
      /\ a <> b /\ b <> c /\ a <> c)
  /\ (forall i other,
        hotelId = Some i -> i <> ""%string ->
        generateHotelImages hotelId hotelName
        = generateHotelImages hotelId other).
Proof.
  split.
  - unfold generateHotelImages. cbv zeta.
    set (h := imageHash _).
    change (Z.of_nat (List.length hotelImages)) with 10.
    pose proof (Z.mod_pos_bound (Z.abs h) 10 ltac:(lia)) as B.
    set (i := Z.abs h mod 10) in *. clearbody i. clear h.
    assert (C : i = 0 \/ i = 1 \/ i = 2 \/ i = 3 \/ i = 4 \/ i = 5 \/ i = 6
                \/ i = 7 \/ i = 8 \/ i = 9) by lia.
    repeat (destruct C as [->|C]); [..|subst i];
      (eexists _, _, _; split; [reflexivity|];
       repeat split; try (cbn; tauto); discriminate).
  - intros i other -> Hi. unfold generateHotelImages, Str.orElse.
    apply truthy_str_spec in Hi. now rewrite Hi.
Qed.

Lemma generateHotelImages_three_distinct_witness :
  generateHotelImages (Some "HLPAR123") (Some "Ritz")
  = generateHotelImages (Some "HLPAR123") None.
Proof.
  destruct (generateHotelImages_three_distinct (Some "HLPAR123") (Some "Ritz"))
    as [_ H].
  apply (H "HLPAR123" None); [reflexivity | discriminate].
Defined.

(** ** Lookups *)

Lemma find_head_filter {A : Type} (p : A -> bool) (l : list A) :
  find p l = hd_error (filter p l).
Proof.
  induction l as [|x l IH]; [reflexivity|].
  simpl. now destruct (p x).
Qed.

Lemma getHotelsByIds_filter (env : Env) (ids : list string) :
  getHotelsByIds env ids
  = filter (fun hotel => arr_includes ids (id hotel)) (mockHotels env).
Proof. unfold getHotelsByIds. now destruct (shouldUseMockData env). Qed.

(** X3: in either mode [getHotelsByIds] returns exactly the catalog
    hotels whose id is among the requested ones, in catalog order: ids that
    name no hotel are skipped without an error, and the order and the
    repetitions of the requested ids do not matter. *)
Theorem getHotelsByIds_spec (env : Env) (ids : list string) :
  (forall h, In h (getHotelsByIds env ids)
             <-> In h (mockHotels env) /\ In (id h) ids)
  /\ (forall ids', (forall i, In i ids <-> In i ids') ->
                   getHotelsByIds env ids' = getHotelsByIds env ids)
  /\ (exists keep, getHotelsByIds env ids = filter keep (mockHotels env))
  /\ (List.length (getHotelsByIds env ids) <= List.length (mockHotels env))%nat.
Proof.
  rewrite getHotelsByIds_filter.
  split; [|split; [|split]].
  - intros h. now rewrite filter_In, arr_includes_spec.
  - intros ids' H. rewrite getHotelsByIds_filter. apply filter_ext.
    intros h. apply eq_true_iff_eq. rewrite !arr_includes_spec. symmetry. apply H.
  - now eexists.
  - apply filter_length_le.
Qed.

Lemma getHotelsByIds_spec_witness :
  getHotelsByIds mockEnv ["C"; "A"; "C"] = getHotelsByIds mockEnv ["A"; "C"].
Proof.
  destruct (getHotelsByIds_spec mockEnv ["A"; "C"]) as (_ & H & _).
  apply H. intros i. cbn. tauto.
Defined.

(** X4: in either mode [getHotelById] returns the first catalog hotel
    with the given id, which is the head of [getHotelsByIds([id])], and
    [null] exactly when no catalog hotel has that id. *)
Theorem getHotelById_spec (env : Env) (i : string) :
  getHotelById env i = hd_error (getHotelsByIds env [i])
  /\ (getHotelById env i = None
      <-> forall h, In h (mockHotels env) -> id h <> i)
  /\ (forall h, getHotelById env i = Some h ->
        In h (mockHotels env) /\ id h = i
        /\ exists before after,
             mockHotels env = (before ++ h :: after)%list
             /\ forall x, In x before -> id x <> i).
Proof.
  assert (E : getHotelById env i
              = find (fun h => (id h =? i)%string) (mockHotels env)).
  { unfold getHotelById. now destruct (shouldUseMockData env). }
  rewrite E. split; [|split].
  - rewrite getHotelsByIds_filter, find_head_filter. f_equal.
    apply filter_ext. intros h. unfold arr_includes. cbn [existsb].
    now rewrite orb_false_r, String.eqb_sym.
  - pose proof (find_first (fun h => (id h =? i)%string) (mockHotels env)) as F.
    destruct (find _ (mockHotels env)) as [h|].
    + destruct F as (pre & post & El & Ph & _).
      split; [discriminate|]. intros H. exfalso.
      apply String.eqb_eq in Ph. apply (H h); [|exact Ph].
      rewrite El. apply in_elt.
    + split; [|reflexivity]. intros _ h Hh. now apply String.eqb_neq, F.
  - intros h Hf.
    pose proof (find_first (fun h => (id h =? i)%string) (mockHotels env)) as F.
    rewrite Hf in F. destruct F as (pre & post & El & Ph & Hpre).
    apply String.eqb_eq in Ph.
    split; [rewrite El; apply in_elt|]. split; [exact Ph|].
    exists pre, post. split; [exact El|].
    intros x Hx. now apply String.eqb_neq, Hpre.
Qed.

Lemma getHotelById_spec_witness :
  getHotelById liveEnv "no-such-id" = None.
Proof.
  destruct (getHotelById_spec liveEnv "no-such-id") as (_ & H & _).
  apply H. intros h Hh. cbn in Hh.
  repeat (destruct Hh as [<-|Hh]; [discriminate|]). destruct Hh.
Defined.

(** ** Destinations and city codes *)

Lemma table_destinations_resolve :
  Forall (fun entry =>
            getCityCode (Some (capitalize (fst entry)))
            = Some (Code (snd entry))) CITY_CODES.
Proof. repeat constructor. Qed.

(** X5: every destination [getDestinations] offers in live mode is a
    capitalised city of the table and resolves, through [getCityCode], to
    the code the table gives that city; there are fifteen of them. *)
Theorem live_destinations_resolve (env : Env) (uniqueCities : list string) :
  shouldUseMockData env = false ->
  List.length (getDestinations env uniqueCities) = 15%nat
  /\ forall d, In d (getDestinations env uniqueCities) ->
       exists city code,
         In (city, code) CITY_CODES
         /\ d = capitalize city
         /\ getCityCode (Some d) = Some (Code code).
Proof.
  intros Hlive. unfold getDestinations. rewrite Hlive. split; [reflexivity|].
  intros d Hd. apply in_map_iff in Hd. destruct Hd as ([city code] & <- & Hin).
  exists city, code. split; [exact Hin|]. split; [reflexivity|].
  pose proof table_destinations_resolve as F.
  rewrite Forall_forall in F. exact (F _ Hin).
Qed.

Lemma live_destinations_resolve_witness :
  List.length (getDestinations liveEnv []) = 15%nat.
Proof.
  apply (live_destinations_resolve liveEnv []). reflexivity.
Defined.

Lemma upper_letter (c : ascii) :
  Str.isLetter c = true -> isUpper (Str.upperChar c) = true.
Proof.
  destruct c as [[] [] [] [] [] [] [] []]; try discriminate; reflexivity.
Qed.

Lemma upper_char_facts (c : ascii) :
  isUpper c = true ->
  Str.isWhite c = false
  /\ Str.isWhite (Str.lowerChar c) = false
  /\ Str.isLetter (Str.lowerChar c) = true
  /\ Str.upperChar (Str.lowerChar c) = c.
Proof.
  destruct c as [[] [] [] [] [] [] [] []]; try discriminate;
    repeat split; reflexivity.
Qed.

Lemma upper_code_resolves (code : string) :
  isUpperCode code = true -> getCityCode (Some code) = Some (Code code).
Proof.
  destruct code as [|a [|b [|c [|d s]]]]; try discriminate.
  cbn [isUpperCode]. rewrite !andb_true_iff. intros [[Ha Hb] Hc].
  destruct (upper_char_facts a Ha) as (Wa & Wla & La & Ua).
  destruct (upper_char_facts b Hb) as (Wb & Wlb & Lb & Ub).
  destruct (upper_char_facts c Hc) as (Wc & Wlc & Lc & Uc).
  unfold getCityCode, Str.trim, Str.trimEnd, Str.rev, Str.toLowerCase,
    Str.toUpperCase.
  cbn [Str.truthy String.eqb negb orb Str.trimStart Str.rev_append Str.map
       String.length].
  rewrite ?Wa, ?Wc, ?Wla, ?Wlc.
  cbn [Str.trimStart Str.rev_append String.length Z.of_nat Z.eqb
       Pos.of_succ_nat Pos.succ Z.ltb Z.compare Pos.compare Pos.compare_cont
       isIataCode Str.map].
  rewrite ?Wa, ?Wc, ?Wla, ?Wlc.
  cbn [Str.trimStart Str.rev_append String.length Z.of_nat Z.eqb
       Pos.of_succ_nat Pos.succ Z.ltb Z.compare Pos.compare Pos.compare_cont
       isIataCode Str.map].
  now rewrite La, Lb, Lc, Ua, Ub, Uc.
Qed.

Lemma table_codes_upper :
  Forall (fun entry => isUpperCode (snd entry) = true) CITY_CODES.
Proof. repeat constructor. Qed.

Lemma own_property_In (table : list (string * string)) (k v : string) :
  own_property table k = Some v -> In (k, v) table.
Proof.
  induction table as [|[key w] rest IH]; [discriminate|].
  cbn [own_property]. destruct (key =? k)%string eqn:E.
  - intros H. inversion H; subst. apply String.eqb_eq in E. subst. now left.
  - intros H. right. now apply IH.
Qed.

(** X6: whenever [getCityCode] returns a code, the code is three
    upper-case letters, and the resolver maps that code to itself: a
    resolved code, used again as a location, resolves to the same code. *)
Theorem getCityCode_code_wellformed (loc : option string) (code : string) :
  getCityCode loc = Some (Code code) ->
  isUpperCode code = true /\ getCityCode (Some code) = Some (Code code).
Proof.
  intros H.
  assert (U : isUpperCode code = true).
  { pose proof table_codes_upper as T. rewrite Forall_forall in T.
    unfold getCityCode in H. destruct loc as [s|].
    2: { inversion H. reflexivity. }
    destruct (negb (Str.truthy s)
              || (Z.of_nat (String.length (Str.trim s)) =? 0)).
    { inversion H. reflexivity. }
    cbv zeta in H.
    destruct (Z.of_nat (String.length (Str.trim (Str.toLowerCase s))) <? 3).
    { destruct (find _ CITY_CODES); discriminate. }
    destruct (isIataCode (Str.trim (Str.toLowerCase s))) eqn:I.
    { inversion H. clear H.
      destruct (Str.trim (Str.toLowerCase s)) as [|a [|b [|c [|d r]]]];
        try discriminate.
      cbn [isIataCode] in I. rewrite !andb_true_iff in I.
      destruct I as [[Ia Ib] Ic].
      cbn [Str.toUpperCase Str.map isUpperCode].
      now rewrite !upper_letter. }
    unfold get_CITY_CODES in H.
    destruct (own_property CITY_CODES (Str.trim (Str.toLowerCase s)))
      as [v|] eqn:O.
    { inversion H; subst. apply own_property_In in O. exact (T _ O). }
    destruct (arr_includes Object_prototype (Str.trim (Str.toLowerCase s)));
      [discriminate|].
    unfold partialMatch in H.
    destruct (find _ CITY_CODES) as [entry|] eqn:F; [|discriminate].
    inversion H; subst. apply find_some in F. exact (T _ (proj1 F)). }
  split; [exact U | now apply upper_code_resolves].
Qed.

Lemma getCityCode_code_wellformed_witness :
  getCityCode (Some "DEL") = Some (Code "DEL").
Proof.
  apply (getCityCode_code_wellformed (Some " delhi  ") "DEL"). reflexivity.
Defined.

(** ** Sorting and pagination *)

Lemma slice_length {A : Type} (l : list A) (a b : Z) :
  a <= b ->
  (List.length (slice l a b) <= Z.to_nat (b - a))%nat
  /\ (List.length (slice l a b) <= List.length l)%nat.
Proof.
  intros Hab. unfold slice. rewrite length_firstn, length_skipn.
  destruct (Z.ltb_spec a 0), (Z.ltb_spec b 0); lia.
Qed.

(** X7: on the mock path (mock mode, or live mode with an unresolved
    location) and for every page number, every returned hotel is a catalog
    hotel that passes the filters, [total] counts the catalog hotels that
    pass them, and the state is untouched; sorting neither drops nor adds
    hotels, whatever the sort key and the collation. *)
Theorem mock_path_sound (env : Env) (o : Oracle) (f : SearchFilters)
  (p : Z) (st : State) :
  shouldUseMockData env = true \/ getCityCode (f_location f) = None ->
  let r := fst (searchHotels env o f p st) in
  snd (searchHotels env o f p st) = st
  /\ (forall h, In h (hotels r) -> In h (mockHotels env) /\ Passes f h)
  /\ total r = Z.of_nat (List.length (filter (keepHotel f) (mockHotels env)))
  /\ Permutation (mockResults env f) (filter (keepHotel f) (mockHotels env)).
Proof.
  intros Hpath r.
  assert (E : searchHotels env o f p st = (paginate (mockResults env f) p, st)).
  { unfold searchHotels, searchHotels_try.
    destruct (shouldUseMockData env); [reflexivity|].
    destruct Hpath as [?|Hc]; [discriminate|]. now rewrite Hc. }
  assert (P : Permutation (mockResults env f)
                          (filter (keepHotel f) (mockHotels env)))
    by apply sortHotels_perm.
  subst r. rewrite E. cbn [fst snd paginate hotels total].
  split; [reflexivity|]. split; [|split; [|exact P]].
  - intros h Hh. apply slice_In in Hh.
    apply (Permutation_in _ P), filter_In in Hh.
    now rewrite keepHotel_spec in Hh.
  - now rewrite (Permutation_length P).
Qed.

Lemma mock_path_sound_witness :
  total (fst (searchHotels liveEnv (sampleOracle 0 [])
                           (locationFilters "xy") (-3) initialState)) = 0.
Proof.
  destruct (mock_path_sound liveEnv (sampleOracle 0 []) (locationFilters "xy")
              (-3) initialState) as (_ & _ & H & _).
  - right. reflexivity.
  - rewrite H. reflexivity.
Defined.

(** X8: whatever the mode, the filters, the state, the outside world and
    the page number (zero and negative ones included), [searchHotels]
    returns at most twelve hotels and never more hotels than [total]. *)
Theorem page_never_exceeds_size (env : Env) (o : Oracle) (f : SearchFilters)
  (p : Z) (st : State) :
  let r := fst (searchHotels env o f p st) in
  (List.length (hotels r) <= 12)%nat
  /\ Z.of_nat (List.length (hotels r)) <= total r.
Proof.
  intros r. subst r.
  destruct (searchHotels_shape env o f p st) as [all [E|E]]; rewrite E.
  - cbn [paginate hotels total]. unfold HOTELS_PER_PAGE.
    pose proof (slice_length all ((p - 1) * 12) ((p - 1) * 12 + 12)
                  ltac:(lia)). lia.
  - cbn [firstPage hotels total]. unfold HOTELS_PER_PAGE.
    pose proof (slice_length all 0 12 ltac:(lia)). lia.
Qed.

Lemma firstn_next_page {A : Type} (l : list A) (n : nat) :
  (firstn (12 * n) l ++ firstn 12 (skipn (12 * n) l))%list
  = firstn (12 * S n) l.
Proof.
  replace (12 * S n)%nat with (12 * n + 12)%nat by lia.
  rewrite <- (firstn_skipn (12 * n) l) at 3.
  rewrite firstn_app.
  destruct (Nat.le_gt_cases (12 * n) (List.length l)) as [H|H].
  - rewrite length_firstn, Nat.min_l by lia.
    replace (12 * n + 12 - 12 * n)%nat with 12%nat by lia.
    f_equal. rewrite firstn_firstn. f_equal. lia.
  - rewrite !skipn_all2 by lia. rewrite !firstn_nil, !app_nil_r.
    rewrite firstn_firstn. f_equal. lia.
Qed.

(** X9: the pages tile the result set: pages 1 to [n], one after the
    other, are its first [12*n] hotels, without gap or repetition; they are
    the whole set as soon as [12*n] reaches its length, which for [n >= 1]
    is exactly when page [n] reports no more results. *)
Theorem pages_tile_results (results : list Hotel) (n : nat) :
  pagesUpTo results n = firstn (12 * n) results
  /\ ((List.length results <= 12 * n)%nat -> pagesUpTo results n = results)
  /\ ((1 <= n)%nat ->
      (hasMore (paginate results (Z.of_nat n)) = false
       <-> (List.length results <= 12 * n)%nat)).
Proof.
  assert (T : pagesUpTo results n = firstn (12 * n) results).
  { induction n as [|n IH]; [reflexivity|].
    cbn [pagesUpTo]. rewrite IH.
    destruct (paginate_spec results (Z.of_nat (S n)) ltac:(lia)) as (H & _).
    rewrite H.
    replace (Z.to_nat ((Z.of_nat (S n) - 1) * 12)) with (12 * n)%nat by lia.
    apply firstn_next_page. }
  split; [exact T|]. split.
  - intros H. rewrite T. now apply firstn_all2.
  - intros Hn.
    destruct (paginate_spec results (Z.of_nat n) ltac:(lia))
      as (_ & _ & _ & _ & H & _).
    rewrite <- not_true_iff_false, H. lia.
Qed.

Lemma pages_tile_results_witness :
  pagesUpTo sampleCatalog 2 = sampleCatalog
  /\ hasMore (paginate sampleCatalog 2) = false.
Proof.
  destruct (pages_tile_results sampleCatalog 2) as (_ & H1 & H2).
  split.
  - apply H1. cbn. lia.
  - apply (H2 ltac:(lia)). cbn. lia.
Defined.

(** ** Cache store *)

Lemma Qeq_bool_truthy (x y : number) :
  Qeq_bool x y = true -> Num.truthy x = Num.truthy y.
Proof.
  intros H. apply Qeq_bool_iff in H. unfold Num.truthy. f_equal.
  apply eq_true_iff_eq. rewrite !Qeq_bool_iff. now rewrite H.
Qed.

Lemma Qeq_bool_ltb_r (v x y : number) :
  Qeq_bool x y = true -> Num.ltb v x = Num.ltb v y.
Proof.
  intros H. apply Qeq_bool_iff in H. unfold Num.ltb. now rewrite H.
Qed.

Lemma Qeq_bool_ltb_l (v x y : number) :
  Qeq_bool x y = true -> Num.ltb x v = Num.ltb y v.
Proof.
  intros H. apply Qeq_bool_iff in H. unfold Num.ltb. now rewrite H.
Qed.

Lemma strings_eqb_eq (a b : list string) : strings_eqb a b = true -> a = b.
Proof.
  revert b. induction a as [|x a IH]; intros [|y b]; try discriminate.
  - reflexivity.
  - cbn [strings_eqb]. rewrite andb_true_iff. intros [E H].
    apply String.eqb_eq in E. subst. f_equal. now apply IH.
Qed.

Lemma keep_of_key (f : SearchFilters) (h : Hotel) :
  keepHotel (filtersOfKey (getCacheKey f)) h = keepHotel (without_location f) h.
Proof.
  unfold keepHotel, filtersOfKey, getCacheKey, without_location.
  cbn [f_location minPrice maxPrice f_rating f_amenities k_minPrice
       k_maxPrice k_rating k_amenities].
  now destruct (f_amenities f).
Qed.

Lemma keep_same_key (k1 k2 : CacheKey) (h : Hotel) :
  key_eqb k1 k2 = true ->
  keepHotel (filtersOfKey k1) h = keepHotel (filtersOfKey k2) h.
Proof.
  unfold key_eqb. rewrite !andb_true_iff.
  intros [[[[[[[_ _] _] Hmin] Hmax] Hr] Ha] _].
  apply strings_eqb_eq in Ha.
  unfold keepHotel, filtersOfKey.
  cbn [f_location minPrice maxPrice f_rating f_amenities].
  rewrite Ha.
  assert (E1 : match k_minPrice k1 with
               | Some m => negb (Num.truthy m && Num.ltb (pricePerNight h) m)
               | None => true
               end
               = match k_minPrice k2 with
                 | Some m => negb (Num.truthy m && Num.ltb (pricePerNight h) m)
                 | None => true
                 end).
  { destruct (k_minPrice k1) as [x|], (k_minPrice k2) as [y|];
      try discriminate; [|reflexivity].
    cbn [Num.opt_eqb] in Hmin.
    now rewrite (Qeq_bool_truthy x y Hmin), (Qeq_bool_ltb_r _ x y Hmin). }
  assert (E2 : match k_maxPrice k1 with
               | Some m => negb (Num.truthy m && Num.gtb (pricePerNight h) m)
               | None => true
               end
               = match k_maxPrice k2 with
                 | Some m => negb (Num.truthy m && Num.gtb (pricePerNight h) m)
                 | None => true
                 end).
  { destruct (k_maxPrice k1) as [x|], (k_maxPrice k2) as [y|];
      try discriminate; [|reflexivity].
    cbn [Num.opt_eqb] in Hmax. unfold Num.gtb.
    now rewrite (Qeq_bool_truthy x y Hmax), (Qeq_bool_ltb_l _ x y Hmax). }
  assert (E3 : match k_rating k1 with
               | Some r => negb (Num.truthy r && Num.ltb (rating h) r)
               | None => true
               end
               = match k_rating k2 with
                 | Some r => negb (Num.truthy r && Num.ltb (rating h) r)
                 | None => true
                 end).
  { destruct (k_rating k1) as [x|], (k_rating k2) as [y|];
      try discriminate; [|reflexivity].
    cbn [Num.opt_eqb] in Hr.
    now rewrite (Qeq_bool_truthy x y Hr), (Qeq_bool_ltb_r _ x y Hr). }
  now rewrite E1, E2, E3.
Qed.

(** What one search does to the cache slot: nothing, or a write of the
    filtered and sorted mapping of at most fifty remote hotels. *)
Lemma searchHotels_cache_cases (env : Env) (o : Oracle) (f : SearchFilters)
  (p : Z) (st : State) :
  searchCache (snd (searchHotels env o f p st)) = searchCache st
  \/ exists mapped,
       (List.length mapped <= 50)%nat
       /\ searchCache (snd (searchHotels env o f p st))
          = {| key := Some (getCacheKey f);
               c_hotels := sortHotels (localeCompare env)
                             (filterHotels mapped (without_location f))
                             (sortBy f);
               timestamp := now_write o; ttl := 5 * 60 * 1000 |}
       /\ fst (searchHotels env o f p st)
          = paginate (sortHotels (localeCompare env)
                        (filterHotels mapped (without_location f))
                        (sortBy f)) p.
Proof.
  destruct (shouldUseMockData env) eqn:Hlive.
  { left. unfold searchHotels, searchHotels_try. now rewrite Hlive. }
  destruct (getCityCode (f_location f)) as [c|] eqn:Hc.
  2: { left. unfold searchHotels, searchHotels_try. now rewrite Hlive, Hc. }
  destruct (isCacheValid (now_cache o) f st) eqn:Hv.
  { left. now rewrite (live_hit env o f p st c Hlive Hc Hv). }
  destruct (acquiresToken (auth1 o) st) eqn:Ht.
  2: { left. destruct (live_miss_token_fails env o f p st c Hlive Hc Hv Ht)
         as (e & st' & E & Hcache & _).
       unfold searchHotels. now rewrite E. }
  destruct (catalog o) as [[b| |data]|] eqn:Hcat.
  1, 2, 4:
    left;
    destruct (live_miss_catalog_fails env o f p st c Hlive Hc Hv Ht)
      as (st' & E & Hcache & _); [rewrite Hcat; congruence | now rewrite E].
  right. unfold searchHotels, searchHotels_try.
  rewrite Hlive, Hc, bind_eq. cbn [get]. rewrite Hv, bind_eq.
  destruct (getAmadeusToken_acquires _ _ Ht) as (t & st1 & E & _).
  rewrite E, bind_eq, Hcat. cbn [fetch]. rewrite bind_eq.
  match goal with
  | |- context [(if 0 <? Z.of_nat (List.length ?ids) then _ else _) ?s] =>
      destruct (enrichment_returns o ids (checkIn f) (checkOut f) s)
        as (om & st2 & E2 & _)
  end.
  rewrite E2. cbn [bind set_searchCache ret fst snd searchCache].
  eexists. split; [|split; reflexivity].
  assert (L : forall {A B} (g : A -> nat -> B) l n,
             List.length (mapi_from n g l) = List.length l).
  { intros A B g l. induction l as [|x l IH]; intros n; [reflexivity|].
    cbn [mapi_from List.length]. now rewrite IH. }
  rewrite L.
  pose proof (slice_length (uniqueBy [] data) 0 50 ltac:(lia)). lia.
Qed.

(** X10: the cache slot stays sound.  It is sound initially, and
    [clearSearchCache] and every [searchHotels] call keep it so: its time to
    live is five minutes, it holds at most fifty hotels, none without a key,
    and each of them passes the price, rating and amenities predicates of
    the key it is stored under. *)
Theorem cache_sound_preserved (env : Env) (o : Oracle) (f : SearchFilters)
  (p : Z) (st : State) :
  CacheSound initialState
  /\ CacheSound (clearSearchCache st)
  /\ (CacheSound st -> CacheSound (snd (searchHotels env o f p st))).
Proof.
  assert (E0 : forall s, searchCache s = emptyCache -> CacheSound s).
  { intros s E. unfold CacheSound. rewrite E. cbn.
    repeat split; [lia | discriminate]. }
  split; [now apply E0|]. split; [now apply E0|].
  intros Hs.
  destruct (searchHotels_cache_cases env o f p st) as [E|(mapped & L & E & _)].
  - unfold CacheSound in *. now rewrite E.
  - unfold CacheSound. rewrite E. cbn [ttl c_hotels key].
    pose proof (sortHotels_perm (localeCompare env)
                  (filterHotels mapped (without_location f)) (sortBy f)) as P.
    split; [reflexivity|]. split; [|split; [discriminate|]].
    + rewrite (Permutation_length P). unfold filterHotels.
      pose proof (filter_length_le (keepHotel (without_location f)) mapped).
      lia.
    + intros k Hk. inversion Hk; subst k.
      apply Forall_forall. intros h Hh.
      apply (Permutation_in _ P) in Hh. unfold filterHotels in Hh.
      apply filter_In in Hh. now rewrite keep_of_key.
Qed.

Lemma cache_sound_preserved_witness :
  CacheSound (snd (searchHotels liveEnv
                     (sampleOracle 1000 [remoteHotel "H1"; remoteHotel "H2"])
                     (locationFilters "paris") 1 initialState)).
Proof.
  destruct (cache_sound_preserved liveEnv
              (sampleOracle 1000 [remoteHotel "H1"; remoteHotel "H2"])
              (locationFilters "paris") 1 initialState) as (H0 & _ & H).
  exact (H H0).
Defined.

(** X11: a cache hit never returns a hotel outside the requested bounds.
    In live mode, when the slot is sound and valid for the filters, every
    hotel of the returned page passes the price, rating and amenities
    predicates of the request, and there are at most fifty results. *)
Theorem cache_hit_respects_filters (env : Env) (o : Oracle)
  (f : SearchFilters) (p : Z) (st : State) :
  CacheSound st ->
  shouldUseMockData env = false ->
  getCityCode (f_location f) <> None ->
  isCacheValid (now_cache o) f st = true ->
  let r := fst (searchHotels env o f p st) in
  (forall h, In h (hotels r) -> Passes (without_location f) h)
  /\ total r <= 50.
Proof.
  intros (_ & L & _ & Hs) Hlive Hc Hv r.
  destruct (getCityCode (f_location f)) as [c|] eqn:Hc1; [|congruence].
  subst r. rewrite (live_hit env o f p st c Hlive Hc1 Hv).
  cbn [fst paginate hotels total]. split; [|lia].
  intros h Hh. apply slice_In in Hh.
  unfold isCacheValid in Hv. rewrite !andb_true_iff in Hv.
  destruct Hv as [[Hk _] _].
  destruct (key (searchCache st)) as [k|] eqn:Ek; [|discriminate].
  specialize (Hs k eq_refl). rewrite Forall_forall in Hs.
  apply keepHotel_spec.
  now rewrite <- keep_of_key, <- (keep_same_key k _ h Hk), Hs.
Qed.

Lemma sample_slot_sound :
  CacheSound (snd (searchHotels liveEnv
                     (sampleOracle 1000 [remoteHotel "H1"; remoteHotel "H2"])
                     (locationFilters "paris") 1 initialState)).
Proof.
  unfold CacheSound. split; [reflexivity|].
  split; [vm_compute; lia|]. split; [discriminate|].
  intros k Hk. vm_compute in Hk. inversion Hk; subst k.
  vm_compute. repeat constructor.
Qed.

Lemma cache_hit_respects_filters_witness :
  let st1 := snd (searchHotels liveEnv
                    (sampleOracle 1000 [remoteHotel "H1"; remoteHotel "H2"])
                    (locationFilters "paris") 1 initialState) in
  total (fst (searchHotels liveEnv (sampleOracle 5000 [])
                           (locationFilters "paris") 1 st1)) <= 50.
Proof.
  cbv zeta.
  apply (cache_hit_respects_filters liveEnv (sampleOracle 5000 [])
           (locationFilters "paris") 1).
  - exact sample_slot_sound.
  - reflexivity.
  - discriminate.
  - reflexivity.
Defined.

(** X12: [clearSearchCache] empties the slot and nothing else: no
    filters and no clock make the cleared slot valid, the cached token and
    the logs are kept, and in live mode the next search of a resolved
    location sends a request, however recent the entry it removed. *)
Theorem clear_forces_refetch (env : Env) (o : Oracle) (f : SearchFilters)
  (p : Z) (st : State) :
  (forall now f', isCacheValid now f' (clearSearchCache st) = false)
  /\ amadeusToken (clearSearchCache st) = amadeusToken st
  /\ tokenExpiresAt (clearSearchCache st) = tokenExpiresAt st
  /\ requests (clearSearchCache st) = requests st
  /\ (shouldUseMockData env = false ->
      getCityCode (f_location f) <> None ->
      (sent st < sent (snd (searchHotels env o f p (clearSearchCache st))))%nat).
Proof.
  assert (V : forall now f', isCacheValid now f' (clearSearchCache st) = false)
    by reflexivity.
  repeat match goal with |- _ /\ _ => split end; try reflexivity.
  intros Hlive Hc.
  destruct (getCityCode (f_location f)) as [c|] eqn:Hc1; [|congruence].
  exact (live_miss_sends env o f p (clearSearchCache st) c Hlive Hc1 (V _ _)).
Qed.

Lemma clear_forces_refetch_witness :
  let st1 := snd (searchHotels liveEnv
                    (sampleOracle 1000 [remoteHotel "H1"; remoteHotel "H2"])
                    (locationFilters "paris") 1 initialState) in
  (sent st1 < sent (snd (searchHotels liveEnv (sampleOracle 2000 [])
                           (locationFilters "paris") 1
                           (clearSearchCache st1))))%nat.
Proof.
  cbv zeta.
  destruct (clear_forces_refetch liveEnv (sampleOracle 2000 [])
              (locationFilters "paris") 1
              (snd (searchHotels liveEnv
                      (sampleOracle 1000 [remoteHotel "H1"; remoteHotel "H2"])
                      (locationFilters "paris") 1 initialState)))
    as (_ & _ & _ & _ & H).
  apply H; [reflexivity | discriminate].
Defined.

(** X13: an entry is reusable for less than its time to live: in live
    mode, when the clock is five minutes or more past the timestamp of a
    sound slot, the search of a resolved location sends a request whatever
    the slot holds, and if the token is acquired and the catalog query
    succeeds the slot is rewritten under the filters' key with the time of
    the write. *)
Theorem expired_entry_is_refetched (env : Env) (o : Oracle) (f : SearchFilters)
  (p : Z) (st : State) :
  shouldUseMockData env = false ->
  getCityCode (f_location f) <> None ->
  ttl (searchCache st) = 5 * 60 * 1000 ->
  5 * 60 * 1000 <= now_cache o - timestamp (searchCache st) ->
  (sent st < sent (snd (searchHotels env o f p st)))%nat
  /\ (acquiresToken (auth1 o) st = true ->
      (exists data, catalog o = Some (Ok data)) ->
      key (searchCache (snd (searchHotels env o f p st))) = Some (getCacheKey f)
      /\ timestamp (searchCache (snd (searchHotels env o f p st))) = now_write o).
Proof.
  intros Hlive Hc Httl Hexp.
  destruct (getCityCode (f_location f)) as [c|] eqn:Hc1; [|congruence].
  assert (Hv : isCacheValid (now_cache o) f st = false).
  { unfold isCacheValid. rewrite Httl.
    replace (now_cache o - timestamp (searchCache st) <? 5 * 60 * 1000)
      with false by (symmetry; apply Z.ltb_ge; lia).
    apply andb_false_r. }
  split; [exact (live_miss_sends env o f p st c Hlive Hc1 Hv)|].
  intros Ht [data Hcat].
  destruct (live_miss_success env o f p st c data Hlive Hc1 Hv Ht Hcat)
    as (hs & st' & E & Hslot & _).
  rewrite E. cbn [snd]. rewrite Hslot. split; reflexivity.
Qed.

Lemma expired_entry_is_refetched_witness :
  let st1 := snd (searchHotels liveEnv
                    (sampleOracle 1000 [remoteHotel "H1"; remoteHotel "H2"])
                    (locationFilters "paris") 1 initialState) in
  timestamp (searchCache
               (snd (searchHotels liveEnv
                       (sampleOracle 400000 [remoteHotel "H1"])
                       (locationFilters "paris") 1 st1)))
  = 400900.
Proof.
  cbv zeta.
  destruct (expired_entry_is_refetched liveEnv
              (sampleOracle 400000 [remoteHotel "H1"])
              (locationFilters "paris") 1
              (snd (searchHotels liveEnv
                      (sampleOracle 1000 [remoteHotel "H1"; remoteHotel "H2"])
                      (locationFilters "paris") 1 initialState)))
    as (_ & H).
  - reflexivity.
  - discriminate.
  - reflexivity.
  - vm_compute. discriminate.
  - destruct H as [_ H].
    + reflexivity.
    + now exists [remoteHotel "H1"].
    + exact H.
Defined.

(** ** Token cache *)

(** X14: a granted token is reused until sixty seconds before its
    expiry.  When [getAmadeusToken] has to ask and is granted a non-empty
    token with lifetime [expires_in] seconds, it sends one token request;
    any later run reading a clock below
    [set time + (expires_in - 60) * 1000] returns that token without sending
    anything or changing the state, and a run reading a clock at or past
    that instant sends a token request again. *)
Theorem token_reused_until_expiry (tc1 tc2 : TokenCall) (st : State)
  (tok : string) (expires_in : Z) :
  tokenValid (tc_now tc1) st = false ->
  tc_response tc1 = Some (Ok (Some tok, expires_in)) ->
  tok <> ""%string ->
  let st1 := snd (getAmadeusToken tc1 st) in
  let expiry := tc_now_set tc1 + (expires_in - 60) * 1000 in
  getAmadeusToken tc1 st = (Return (Some tok), st1)
  /\ requests st1 = TokenRequest :: requests st
  /\ tokenExpiresAt st1 = expiry
  /\ (tc_now tc2 < expiry ->
      getAmadeusToken tc2 st1 = (Return (Some tok), st1))
  /\ (expiry <= tc_now tc2 ->
      requests (snd (getAmadeusToken tc2 st1)) = TokenRequest :: requests st1).
Proof.
  intros Hinv Hresp Htok st1 expiry.
  assert (E : getAmadeusToken tc1 st
              = (Return (Some tok),
                 {| amadeusToken := Some tok; tokenExpiresAt := expiry;
                    searchCache := searchCache st;
                    requests := TokenRequest :: requests st;
                    thrown := thrown st |})).
  { unfold getAmadeusToken, bind, get. unfold tokenValid in Hinv.
    rewrite Hinv, Hresp. reflexivity. }
  subst st1. rewrite E. cbn [snd requests tokenExpiresAt].
  split; [reflexivity|]. split; [reflexivity|]. split; [reflexivity|].
  apply truthy_str_spec in Htok.
  split; intros H; unfold getAmadeusToken, bind, get;
    cbn [amadeusToken tokenExpiresAt opt_truthy]; rewrite Htok.
  - replace (tc_now tc2 <? expiry) with true
      by (symmetry; apply Z.ltb_lt; exact H).
    reflexivity.
  - replace (tc_now tc2 <? expiry) with false
      by (symmetry; apply Z.ltb_ge; exact H).
    cbn [andb]. unfold fetch.
    destruct (tc_response tc2) as [[[|]| |[t x]]|]; reflexivity.
Qed.

Lemma token_reused_until_expiry_witness :
  getAmadeusToken (tokenGranted 1700000)
    (snd (getAmadeusToken (tokenGranted 1000) initialState))
  = (Return (Some "token"),
     snd (getAmadeusToken (tokenGranted 1000) initialState)).
Proof.
  destruct (token_reused_until_expiry (tokenGranted 1000)
              (tokenGranted 1700000) initialState "token" 1800)
    as (_ & _ & _ & H & _).
  - reflexivity.
  - reflexivity.
  - discriminate.
  - apply H. vm_compute. reflexivity.
Defined.

Lemma failed_token_keeps_state_aux (tc : TokenCall) (st : State) :
  acquiresToken tc st = false ->
  exists e st',
    getAmadeusToken tc st = (Threw e, st')
    /\ requests st' = TokenRequest :: requests st.
Proof.
  unfold acquiresToken, getAmadeusToken, bind, get. intros H.
  destruct (opt_truthy (amadeusToken st) && (tc_now tc <? tokenExpiresAt st));
    [discriminate|].
  cbn [orb] in H. unfold fetch.
  destruct (tc_response tc) as [[[|]| |[t x]]|]; try discriminate;
    cbn; eexists _, _; split; reflexivity.
Qed.

(** X15: a failed token acquisition changes nothing but the logs: the
    cached token, its expiry and the cache slot are as before, exactly one
    token request has been sent and one error raised. *)
Theorem failed_token_keeps_state (tc : TokenCall) (st : State) :
  acquiresToken tc st = false ->
  let st' := snd (getAmadeusToken tc st) in
  (exists e, fst (getAmadeusToken tc st) = Threw e
             /\ thrown st' = e :: thrown st)
  /\ amadeusToken st' = amadeusToken st
  /\ tokenExpiresAt st' = tokenExpiresAt st
  /\ searchCache st' = searchCache st
  /\ requests st' = TokenRequest :: requests st.
Proof.
  unfold acquiresToken, getAmadeusToken, bind, get. intros H.
  destruct (opt_truthy (amadeusToken st) && (tc_now tc <? tokenExpiresAt st));
    [discriminate|].
  cbn [orb] in H. unfold fetch.
  destruct (tc_response tc) as [[[|]| |[t x]]|]; try discriminate;
    cbn; (split; [eexists; split; reflexivity|]); repeat split.
Qed.

Lemma failed_token_keeps_state_witness :
  amadeusToken (snd (getAmadeusToken (tokenRefused 2000) staleTokenState))
  = Some "token".
Proof.
  destruct (failed_token_keeps_state (tokenRefused 2000) staleTokenState)
    as (_ & H & _); [reflexivity | exact H].
Defined.

(** ** Enrichment *)

(** X16: [fetchHotelOffers] fails only for want of a token.  With no
    hotel ids it returns no offers and does nothing at all.  With ids and a
    token it never throws: it sends one offers request for the first ten
    ids at most, and returns the offers of a successful, readable response
    and no offers in every other case.  Without a token it throws before
    any offers request is sent. *)
Theorem fetchHotelOffers_outcomes (o : Oracle) (ids : list string)
  (ci co : option string) (st : State) :
  (ids = [] -> fetchHotelOffers o ids ci co st = (Return [], st))
  /\ (ids <> [] -> acquiresToken (auth2 o) st = true ->
      exists st',
        fetchHotelOffers o ids ci co st
        = (Return (match offers o with
                   | Some (Ok data) => data
                   | _ => []
                   end), st')
        /\ hd_error (requests st')
           = Some (HotelOffers (firstn 10 ids) (falsy_to_none ci)
                               (falsy_to_none co))
        /\ searchCache st' = searchCache st)
  /\ (ids <> [] -> acquiresToken (auth2 o) st = false ->
      exists e st',
        fetchHotelOffers o ids ci co st = (Threw e, st')
        /\ requests st' = TokenRequest :: requests st).
Proof.
  split; [|split].
  - intros ->. reflexivity.
  - intros Hne Ht. unfold fetchHotelOffers.
    destruct ids as [|i ids]; [congruence|]. clear Hne.
    replace (Z.of_nat (List.length (i :: ids)) =? 0) with false
      by (symmetry; apply Z.eqb_neq; cbn [List.length]; lia).
    rewrite bind_eq.
    destruct (getAmadeusToken_acquires _ _ Ht) as (t & st1 & E & Hcache & _).
    rewrite E.
    rewrite (slice_nonneg (i :: ids) 0 10) by lia.
    change (Z.to_nat (10 - 0)) with 10%nat. change (Z.to_nat 0) with 0%nat.
    rewrite skipn_O. unfold try_catch, bind, fetch.
    destruct (offers o) as [[b| |data]|]; cbn;
      (eexists; split; [reflexivity|]; split; [reflexivity | exact Hcache]).
  - intros Hne Ht. unfold fetchHotelOffers.
    destruct ids as [|i ids]; [congruence|]. clear Hne.
    replace (Z.of_nat (List.length (i :: ids)) =? 0) with false
      by (symmetry; apply Z.eqb_neq; cbn [List.length]; lia).
    rewrite bind_eq.
    destruct (failed_token_keeps_state_aux (auth2 o) st Ht) as (e & st' & E & R).
    rewrite E. now exists e, st'.
Qed.

Lemma fetchHotelOffers_outcomes_witness :
  fst (fetchHotelOffers enrichmentAuthFailure ["H1"] None None staleTokenState)
  = Threw AuthFailed
  /\ fetchHotelOffers enrichmentAuthFailure [] None None staleTokenState
     = (Return [], staleTokenState).
Proof.
  destruct (fetchHotelOffers_outcomes enrichmentAuthFailure ["H1"] None None
              staleTokenState) as (_ & _ & H).
  destruct (fetchHotelOffers_outcomes enrichmentAuthFailure [] None None
              staleTokenState) as (H0 & _).
  split; [|exact (H0 eq_refl)].
  destruct H as (e & st' & E & _); [discriminate | reflexivity |].
  rewrite E. cbn [fst]. vm_compute in E. now inversion E.
Defined.

(** ** Request budget *)

Lemma AtMost_ret {A} (a : A) : AtMost 0 (ret a).
Proof. intros st. cbn. lia. Qed.

Lemma AtMost_throw {A} (e : Error) : AtMost 0 (@throw A e).
Proof. intros st. unfold sent. cbn. lia. Qed.

Lemma AtMost_weaken {A} (n m : nat) (c : Async A) :
  (n <= m)%nat -> AtMost n c -> AtMost m c.
Proof. intros L H st. specialize (H st). lia. Qed.

Lemma AtMost_fetch {A} (r : Request) (resp : option (Response A)) :
  AtMost 1 (fetch r resp).
Proof. intros st. unfold sent, fetch. destruct resp; cbn; lia. Qed.

Lemma AtMost_bind {A B} (a b : nat) (m : Async A) (k : A -> Async B) :
  AtMost a m -> (forall x, AtMost b (k x)) -> AtMost (a + b) (bind m k).
Proof.
  intros Hm Hk st. unfold bind. specialize (Hm st).
  destruct (m st) as [[x|e] st']; cbn [snd] in *; [|lia].
  specialize (Hk x st'). lia.
Qed.

Lemma AtMost_try_catch {A} (a b : nat) (m : Async A) (h : Error -> Async A) :
  AtMost a m -> (forall e, AtMost b (h e)) -> AtMost (a + b) (try_catch m h).
Proof.
  intros Hm Hh st. unfold try_catch. specialize (Hm st).
  destruct (m st) as [[x|e] st']; cbn [snd] in *; [lia|].
  specialize (Hh e st'). lia.
Qed.

Lemma AtMost_getAmadeusToken (tc : TokenCall) : AtMost 1 (getAmadeusToken tc).
Proof.
  intros st. unfold getAmadeusToken, bind, get, sent, fetch.
  destruct (opt_truthy (amadeusToken st) && (tc_now tc <? tokenExpiresAt st));
    [cbn; lia|].
  destruct (tc_response tc) as [[[|]| |[t x]]|]; cbn; lia.
Qed.

Lemma AtMost_fetchHotelOffers (o : Oracle) (ids : list string)
  (ci co : option string) : AtMost 2 (fetchHotelOffers o ids ci co).
Proof.
  unfold fetchHotelOffers.
  destruct (Z.of_nat (List.length ids) =? 0).
  { apply (AtMost_weaken 0); [lia | apply AtMost_ret]. }
  apply (AtMost_bind 1 1); [apply AtMost_getAmadeusToken|]. intros _.
  apply (AtMost_try_catch 1 0); [|intros e; apply AtMost_ret].
  apply (AtMost_bind 1 0); [apply AtMost_fetch|].
  intros [b| |data]; [apply AtMost_ret | apply AtMost_throw | apply AtMost_ret].
Qed.

Lemma AtMost_searchHotels_try (env : Env) (o : Oracle) (f : SearchFilters)
  (p : Z) : AtMost 4 (searchHotels_try env o f p).
Proof.
  unfold searchHotels_try.
  destruct (shouldUseMockData env).
  { apply (AtMost_weaken 0); [lia | apply AtMost_ret]. }
  destruct (getCityCode (f_location f)) as [c|].
  2: { apply (AtMost_weaken 0); [lia | apply AtMost_ret]. }
  apply (AtMost_bind 0 4); [intros st; cbn; lia|]. intros st0.
  destruct (isCacheValid (now_cache o) f st0).
  { apply (AtMost_weaken 0); [lia | apply AtMost_ret]. }
  apply (AtMost_bind 1 3); [apply AtMost_getAmadeusToken|]. intros _.
  apply (AtMost_bind 1 2); [apply AtMost_fetch|].
  intros [[|]| |data];
    try (apply (AtMost_weaken 0); [lia | first [apply AtMost_ret | apply AtMost_throw]]).
  apply (AtMost_bind 2 0).
  - match goal with |- AtMost 2 (if ?b then _ else _) => destruct b end.
    + apply (AtMost_try_catch 2 0); [|intros e; apply AtMost_ret].
      apply (AtMost_bind 2 0); [apply AtMost_fetchHotelOffers|].
      intros x. apply AtMost_ret.
    + apply (AtMost_weaken 0); [lia | apply AtMost_ret].
  - intros om. apply (AtMost_bind 0 0); [|intros x; apply AtMost_ret].
    intros st. unfold sent. cbn. lia.
Qed.

(** X17: one search sends at most four requests (token, catalog, token,
    offers), whatever the responses; in mock mode, for an unresolved
    location and on a cache hit it sends none and leaves the whole state as
    it was. *)
Theorem search_request_budget (env : Env) (o : Oracle) (f : SearchFilters)
  (p : Z) (st : State) :
  (sent (snd (searchHotels env o f p st)) <= sent st + 4)%nat
  /\ (shouldUseMockData env = true
      \/ getCityCode (f_location f) = None
      \/ isCacheValid (now_cache o) f st = true ->
      snd (searchHotels env o f p st) = st).
Proof.
  split.
  - pose proof (AtMost_searchHotels_try env o f p st) as H.
    unfold searchHotels.
    now destruct (searchHotels_try env o f p st) as [[r|e] st'].
  - intros H. unfold searchHotels, searchHotels_try.
    destruct (shouldUseMockData env); [reflexivity|].
    destruct (getCityCode (f_location f)) as [c|]; [|reflexivity].
    destruct H as [H|[H|H]]; try discriminate.
    rewrite bind_eq. cbn [get]. now rewrite H.
Qed.

Lemma search_request_budget_witness :
  snd (searchHotels liveEnv (sampleOracle 0 []) (locationFilters "xy") 1
                    initialState) = initialState.
Proof.
  destruct (search_request_budget liveEnv (sampleOracle 0 [])
              (locationFilters "xy") 1 initialState) as [_ H].
  apply H. right. left. reflexivity.
Defined.

(** ** Deduplication and the offers map *)

Lemma seen_spec (i : option string) (seen : list (option string)) :
  existsb (opt_string_eqb i) seen = true <-> In i seen.
Proof.
  rewrite existsb_exists. split.
  - intros [j [Hj E]]. destruct i as [x|], j as [y|]; try discriminate.
    + apply String.eqb_eq in E. now subst.
    + exact Hj.
  - intros H. exists i. split; [exact H|].
    destruct i as [x|]; [apply String.eqb_refl | reflexivity].
Qed.

Lemma uniqueBy_ids (l : list AmadeusHotel) (seen : list (option string)) :
  NoDup (map hotelId (uniqueBy seen l))
  /\ (forall i, In i (map hotelId (uniqueBy seen l))
                <-> In i (map hotelId l) /\ ~ In i seen).
Proof.
  revert seen. induction l as [|h l IH]; intros seen.
  - split; [constructor|]. cbn. tauto.
  - cbn [uniqueBy].
    destruct (existsb (opt_string_eqb (hotelId h)) seen) eqn:E.
    + apply seen_spec in E. destruct (IH seen) as [N M].
      split; [exact N|]. intros i. rewrite M. cbn [map In].
      split; [tauto|]. intros [[<-|H] S]; [contradiction | tauto].
    + assert (E' : ~ In (hotelId h) seen).
      { intros H. apply seen_spec in H. congruence. }
      destruct (IH (hotelId h :: seen)) as [N M].
      split.
      * cbn [map]. constructor; [|exact N].
        rewrite M. intros [_ H]. apply H. now left.
      * intros i. cbn [map In]. rewrite M. cbn [In].
        assert (Dec : {i = hotelId h} + {i <> hotelId h})
          by (decide equality; apply string_dec).
        destruct Dec as [->|D].
        -- split; [intros _; split; [now left | exact E'] | intros _; now left].
        -- split.
           ++ intros [H|[H S]]; [congruence|]. split; [now right|tauto].
           ++ intros [[H|H] S]; [congruence|]. right. split; [exact H|].
              intros [H'|H']; [congruence | contradiction].
Qed.

Lemma opt_string_eqb_eq (a b : option string) :
  opt_string_eqb a b = true <-> a = b.
Proof.
  destruct a as [x|], b as [y|]; cbn; split;
    try discriminate; try reflexivity.
  - intros E. apply String.eqb_eq in E. now subst.
  - intros E. inversion E. apply String.eqb_refl.
Qed.

Lemma uniqueBy_first (l : list AmadeusHotel) (seen : list (option string))
  (i : option string) :
  ~ In i seen ->
  find (fun x => opt_string_eqb (hotelId x) i) (uniqueBy seen l)
  = find (fun x => opt_string_eqb (hotelId x) i) l.
Proof.
  revert seen. induction l as [|h l IH]; intros seen Hi; [reflexivity|].
  cbn [uniqueBy find].
  destruct (existsb (opt_string_eqb (hotelId h)) seen) eqn:E.
  - apply seen_spec in E.
    destruct (opt_string_eqb (hotelId h) i) eqn:B.
    + apply opt_string_eqb_eq in B. subst i. contradiction.
    + now apply IH.
  - cbn [find]. destruct (opt_string_eqb (hotelId h) i) eqn:B; [reflexivity|].
    apply IH. intros [H|H]; [|contradiction].
    apply opt_string_eqb_eq in H. congruence.
Qed.

Lemma uniqueBy_nodup_id (l : list AmadeusHotel) (seen : list (option string)) :
  NoDup (map hotelId l) ->
  (forall i, In i (map hotelId l) -> ~ In i seen) ->
  uniqueBy seen l = l.
Proof.
  revert seen. induction l as [|h l IH]; intros seen N D; [reflexivity|].
  cbn [uniqueBy]. cbn [map] in N. inversion N as [|? ? Hnot N']; subst.
  destruct (existsb (opt_string_eqb (hotelId h)) seen) eqn:E.
  - apply seen_spec in E. exfalso. apply (D (hotelId h)); [now left | exact E].
  - f_equal. apply IH; [exact N'|].
    intros i Hi [H|H].
    + subst i. contradiction.
    + apply (D i); [now right | exact H].
Qed.

(** X18: the deduplication of the remote hotels keeps, for every hotel
    id of the response (an absent id counting as one id), exactly its first
    record: the result has no two records with the same id, has the same ids
    as the response, the record under each id is the first one the response
    has for it, and a response without repeated ids is kept as it is. *)
Theorem dedupe_keeps_first (data : list AmadeusHotel) :
  NoDup (map hotelId (uniqueBy [] data))
  /\ (forall i, In i (map hotelId (uniqueBy [] data))
                <-> In i (map hotelId data))
  /\ (forall i, find (fun x => opt_string_eqb (hotelId x) i) (uniqueBy [] data)
                = find (fun x => opt_string_eqb (hotelId x) i) data)
  /\ (NoDup (map hotelId data) -> uniqueBy [] data = data).
Proof.
  destruct (uniqueBy_ids data []) as [N M].
  split; [exact N|]. split; [|split].
  - intros i. rewrite M. cbn [In]. tauto.
  - intros i. apply uniqueBy_first. intros [].
  - intros H. apply uniqueBy_nodup_id; [exact H|]. intros i _ [].
Qed.

Lemma dedupe_keeps_first_witness :
  uniqueBy [] [remoteHotel "H1"; remoteHotel "H2"]
  = [remoteHotel "H1"; remoteHotel "H2"].
Proof.
  destruct (dedupe_keeps_first [remoteHotel "H1"; remoteHotel "H2"])
    as (_ & _ & _ & H).
  apply H. cbn. repeat constructor; cbn; intuition discriminate.
Defined.

Lemma find_app_first {A : Type} (p : A -> bool) (l1 l2 : list A) :
  find p (l1 ++ l2)%list
  = match find p l1 with Some x => Some x | None => find p l2 end.
Proof.
  induction l1 as [|x l1 IH]; [reflexivity|].
  cbn [app find]. now destruct (p x).
Qed.

Lemma assign_offer_own (i : string) (m : OffersMap) (x : AmadeusOffer) :
  Str.truthy i = true -> i <> "__proto__"%string ->
  find (fun kv => (fst kv =? i)%string) (om_own (assign_offer m x))
  = if opt_string_eqb (offer_hotelId x) (Some i) then Some (i, x)
    else find (fun kv => (fst kv =? i)%string) (om_own m).
Proof.
  intros Hi Hp. unfold assign_offer.
  destruct (offer_hotelId x) as [j|]; cbn [opt_string_eqb]; [|reflexivity].
  destruct (Str.truthy j) eqn:Tj.
  - destruct (String.eqb_spec j i) as [->|Hji].
    + replace (i =? "__proto__")%string with false
        by (symmetry; now apply String.eqb_neq).
      cbn [andb om_own find fst]. now rewrite String.eqb_refl.
    + destruct ((j =? "__proto__")%string && reaches_proto_setter m);
        cbn [om_own find fst]; [reflexivity|].
      now replace (j =? i)%string with false
        by (symmetry; now apply String.eqb_neq).
  - unfold Str.truthy in Tj. apply negb_false_iff, String.eqb_eq in Tj.
    subst j. unfold Str.truthy in Hi. apply negb_true_iff in Hi.
    rewrite String.eqb_sym in Hi. now rewrite Hi.
Qed.

Lemma offersMap_own (i : string) (offers : list AmadeusOffer) (m : OffersMap) :
  Str.truthy i = true -> i <> "__proto__"%string ->
  find (fun kv => (fst kv =? i)%string)
       (om_own (fold_left assign_offer offers m))
  = match find (fun x => opt_string_eqb (offer_hotelId x) (Some i))
               (rev offers) with
    | Some x => Some (i, x)
    | None => find (fun kv => (fst kv =? i)%string) (om_own m)
    end.
Proof.
  intros Hi Hp. revert m. induction offers as [|x offers IH]; intros m.
  - reflexivity.
  - cbn [fold_left rev]. rewrite IH, find_app_first. cbn [find].
    destruct (find _ (rev offers)); [reflexivity|].
    rewrite (assign_offer_own i m x Hi Hp).
    now destruct (opt_string_eqb (offer_hotelId x) (Some i)).
Qed.

Lemma offersMap_proto (offers : list AmadeusOffer) (m : OffersMap) :
  (forall x, In x offers -> offer_hotelId x <> Some "__proto__"%string) ->
  om_proto (fold_left assign_offer offers m) = om_proto m.
Proof.
  revert m. induction offers as [|x offers IH]; intros m H; [reflexivity|].
  cbn [fold_left]. rewrite IH by (intros y Hy; apply H; now right).
  unfold assign_offer.
  destruct (offer_hotelId x) as [j|] eqn:E; [|reflexivity].
  destruct (Str.truthy j); [|reflexivity].
  destruct (String.eqb_spec j "__proto__") as [->|Hj].
  - exfalso. apply (H x); [now left | exact E].
  - reflexivity.
Qed.

(** X19: the offers map gives each hotel its latest offer.  For a
    non-empty hotel id other than [__proto__], the lookup returns the last
    offer of the response that carries this id; when no offer carries it and
    no offer is keyed [__proto__], the lookup yields [null], unless the id
    names a member of Object.prototype, which the lookup then returns in
    place of an offer. *)
Theorem offersMap_last_wins (offers : list AmadeusOffer) (i : string) :
  i <> ""%string -> i <> "__proto__"%string ->
  match find (fun x => opt_string_eqb (offer_hotelId x) (Some i))
             (rev offers) with
  | Some offer =>
      get_offersMap (build_offersMap offers) (Some i) = Some (AnOffer offer)
  | None =>
      (forall x, In x offers -> offer_hotelId x <> Some "__proto__"%string) ->
      get_offersMap (build_offersMap offers) (Some i)
      = if arr_includes Object_prototype i then Some (ObjectMember i)
        else None
  end.
Proof.
  intros Hi Hp. apply truthy_str_spec in Hi.
  unfold get_offersMap, build_offersMap. cbn [propertyKey]. cbv zeta.
  rewrite (offersMap_own i offers emptyOffersMap Hi Hp).
  destruct (find _ (rev offers)) as [offer|]; [reflexivity|].
  intros Hnone. cbn [emptyOffersMap om_own find].
  rewrite (offersMap_proto offers emptyOffersMap Hnone).
  cbn [emptyOffersMap om_proto]. unfold inherited_of_Object.
  now replace (i =? "__proto__")%string with false
    by (symmetry; now apply String.eqb_neq).
Qed.

Lemma offersMap_last_wins_witness :
  let offer (i total : string) :=
    {| offer_hotelId := Some i; offer_total := Some total;
       offer_properties := [("hotel", true); ("offers", true)] |} in
  let offers := [offer "H1" "120.00"; offer "H2" "80.00"; offer "H1" "99.50"] in
  get_offersMap (build_offersMap offers) (Some "H1")
  = Some (AnOffer (offer "H1" "99.50"))
  /\ get_offersMap (build_offersMap offers) (Some "H3") = None
  /\ get_offersMap (build_offersMap offers) (Some "constructor")
     = Some (ObjectMember "constructor").
Proof.
  cbv zeta.
  match goal with
  | |- get_offersMap (build_offersMap ?l) _ = _ /\ _ =>
      pose proof (offersMap_last_wins l "H1" ltac:(discriminate)
                    ltac:(discriminate)) as H1;
      pose proof (offersMap_last_wins l "H3" ltac:(discriminate)
                    ltac:(discriminate)) as H3;
      pose proof (offersMap_last_wins l "constructor" ltac:(discriminate)
                    ltac:(discriminate)) as Hc
  end.
  cbn [rev app find opt_string_eqb offer_hotelId String.eqb Ascii.eqb
       Bool.eqb] in H1, H3, Hc.
  assert (N : forall x,
             In x [ {| offer_hotelId := Some "H1"; offer_total := Some "120.00";
                       offer_properties := [("hotel", true); ("offers", true)] |};
                    {| offer_hotelId := Some "H2"; offer_total := Some "80.00";
                       offer_properties := [("hotel", true); ("offers", true)] |};
                    {| offer_hotelId := Some "H1"; offer_total := Some "99.50";
                       offer_properties := [("hotel", true); ("offers", true)] |} ] ->
             offer_hotelId x <> Some "__proto__"%string).
  { intros x [<-|[<-|[<-|[]]]]; discriminate. }
  split; [exact H1|]. split; [exact (H3 N) | exact (Hc N)].
Defined.

(** ** The search hook *)

(** Loading more from a source that answers every page request with the
    page of one fixed list, without touching the state. *)
Lemma loadMores_accumulate (env : Env) (R : list Hotel) (st : State)
  (os : list Oracle) :
  forall (hk : HookState) (n : nat),
    (forall o p, In o os -> 1 <= p ->
                 searchHotels env o (hk_filters hk) p st = (paginate R p, st)) ->
    hk_loading hk = false ->
    hk_hotels hk = firstn (12 * (1 + n)) R ->
    hk_hasMore hk = (Z.of_nat (12 * (1 + n)) <? Z.of_nat (List.length R)) ->
    (hk_hasMore hk = true -> hk_page hk = Z.of_nat (1 + n)) ->
    let s' := loadMores env os (hk, st) in
    snd s' = st
    /\ hk_hotels (fst s') = firstn (12 * (1 + n + List.length os)) R
    /\ hk_hasMore (fst s')
       = (Z.of_nat (12 * (1 + n + List.length os)) <? Z.of_nat (List.length R))
    /\ hk_total (fst s') = hk_total hk
    /\ hk_filters (fst s') = hk_filters hk.
Proof.
  induction os as [|o os IH]; intros hk n Hsrc Hload Hh Hm Hp.
  - cbn [loadMores List.length fst snd]. rewrite Nat.add_0_r. now repeat split.
  - cbn [loadMores List.length].
    replace (1 + n + S (List.length os))%nat
      with (1 + S n + List.length os)%nat by lia.
    destruct (hk_hasMore hk) eqn:Hmore.
    + specialize (Hp eq_refl).
      assert (E : loadMore env o (hk, st)
                  = ({| hk_hotels :=
                          (hk_hotels hk
                           ++ hotels (paginate R (Z.of_nat (1 + n) + 1)))%list;
                        hk_loading := false; hk_error := None;
                        hk_total := hk_total hk;
                        hk_page := Z.of_nat (1 + n) + 1;
                        hk_hasMore :=
                          hasMore (paginate R (Z.of_nat (1 + n) + 1));
                        hk_filters := hk_filters hk |}, st)).
      { unfold loadMore. rewrite Hload, Hmore, Hp. cbn [orb negb].
        now rewrite (Hsrc o (Z.of_nat (1 + n) + 1) (or_introl eq_refl))
          by lia. }
      rewrite E.
      assert (Hpage : hotels (paginate R (Z.of_nat (1 + n) + 1))
                      = firstn 12 (skipn (12 * (1 + n)) R)).
      { destruct (paginate_spec R (Z.of_nat (1 + n) + 1) ltac:(lia)) as (H & _).
        rewrite H. do 2 f_equal. lia. }
      assert (Hmore' : hasMore (paginate R (Z.of_nat (1 + n) + 1))
                       = (Z.of_nat (12 * (1 + S n)) <? Z.of_nat (List.length R))).
      { cbn [paginate hasMore]. unfold HOTELS_PER_PAGE. f_equal. lia. }
      set (hk' := {| hk_hotels := _ |}).
      change (hk_total hk) with (hk_total hk').
      change (hk_filters hk) with (hk_filters hk').
      apply (IH hk' (S n)); subst hk';
        cbn [hk_filters hk_loading hk_hotels hk_hasMore hk_page hk_total].
      * intros o' p Ho' Hp'. apply Hsrc; [now right | exact Hp'].
      * reflexivity.
      * rewrite Hh, Hpage. apply (firstn_next_page R (1 + n)).
      * exact Hmore'.
      * intros _. lia.
    + assert (E : loadMore env o (hk, st) = (hk, st)).
      { unfold loadMore. rewrite Hload, Hmore. reflexivity. }
      rewrite E.
      symmetry in Hm. apply Z.ltb_ge in Hm.
      apply (IH hk (S n)).
      * intros o' p Ho' Hp'. apply Hsrc; [now right | exact Hp'].
      * exact Hload.
      * rewrite Hh. rewrite !firstn_all2 by lia. reflexivity.
      * rewrite Hmore. symmetry. apply Z.ltb_ge. lia.
      * intros H. congruence.
Qed.

Lemma first_page_state (R : list Hotel) :
  hotels (paginate R 1) = firstn (12 * (1 + 0)) R
  /\ hasMore (paginate R 1)
     = (Z.of_nat (12 * (1 + 0)) <? Z.of_nat (List.length R)).
Proof.
  destruct (paginate_spec R 1 ltac:(lia)) as (H & _).
  rewrite H. split; reflexivity.
Qed.

(** X20: in mock mode, [search] followed by any number [n] of
    [loadMore] calls shows exactly the first [12*(n+1)] hotels of the
    filtered and sorted catalog, without gap or repetition: the whole set
    once it is exhausted, after which [loadMore] does nothing.  [total] is
    the size of the set, [hasMore] tells whether hotels remain, and the
    module state is never touched. *)
Theorem hook_pages_accumulate_mock (env : Env) (o : Oracle)
  (os : list Oracle) (hk : HookState) (st : State) :
  shouldUseMockData env = true ->
  let R := sortHotels (localeCompare env)
                      (filterHotels (mockHotels env) (hk_filters hk))
                      (sortBy (hk_filters hk)) in
  let s' := loadMores env os (search env o (hk, st)) in
  snd s' = st
  /\ hk_hotels (fst s') = firstn (12 * (1 + List.length os)) R
  /\ hk_total (fst s') = Z.of_nat (List.length R)
  /\ (hk_hasMore (fst s') = true
      <-> (12 * (1 + List.length os) < List.length R)%nat)
  /\ ((List.length R <= 12 * (1 + List.length os))%nat ->
      hk_hotels (fst s') = R).
Proof.
  intros Hmock R s'.
  assert (Hsrc : forall o' p,
             searchHotels env o' (hk_filters hk) p st = (paginate R p, st)).
  { intros o' p. unfold searchHotels, searchHotels_try. now rewrite Hmock. }
  subst s'. unfold search. rewrite Hsrc.
  destruct (first_page_state R) as [H1 H2].
  match goal with
  | |- context [loadMores env os (?h, st)] =>
      destruct (loadMores_accumulate env R st os h 0) as (A & B & C & D & _)
  end; cbn [hk_filters hk_loading hk_hotels hk_hasMore hk_page hk_total];
    try assumption; try reflexivity.
  { intros o' p _ _. apply Hsrc. }
  cbn [hk_total] in D. rewrite Nat.add_0_r in B, C.
  split; [exact A|]. split; [exact B|]. split; [exact D|]. split.
  - rewrite C, Z.ltb_lt. lia.
  - intros H. rewrite B. now apply firstn_all2.
Qed.

Lemma hook_pages_accumulate_mock_witness :
  hk_hotels (fst (loadMores mockEnv [sampleOracle 1 []; sampleOracle 2 []]
                    (search mockEnv (sampleOracle 0 [])
                            (useHotelSearch
                               {| p_location := None; p_checkIn := None;
                                  p_checkOut := None; p_guests := None;
                                  p_minPrice := None; p_maxPrice := None;
                                  p_rating := None; p_amenities := None;
                                  p_sortBy := None |}, initialState))))
  = sampleCatalog.
Proof.
  match goal with
  | |- hk_hotels (fst (loadMores ?e ?os (search ?e ?o (?h, ?s)))) = _ =>
      destruct (hook_pages_accumulate_mock e o os h s eq_refl)
        as (_ & _ & _ & _ & H)
  end.
  rewrite H; [reflexivity | cbn; lia].
Defined.

(** X21: in live mode, once the slot holds a non-empty result set under
    the hook's filters, [search] and any number of [loadMore] calls made
    within five minutes of the slot's timestamp are served from the cache:
    no request is sent, the state does not change, and the hook shows the
    first [12*(n+1)] hotels of the cached set after [n] calls of
    [loadMore]. *)
Theorem hook_pages_from_cache (env : Env) (o : Oracle) (os : list Oracle)
  (hk : HookState) (st : State) (hs : list Hotel) (t : Z) :
  shouldUseMockData env = false ->
  getCityCode (f_location (hk_filters hk)) <> None ->
  searchCache st
  = {| key := Some (getCacheKey (hk_filters hk)); c_hotels := hs;
       timestamp := t; ttl := 5 * 60 * 1000 |} ->
  hs <> [] ->
  (forall o', In o' (o :: os) -> now_cache o' - t < 5 * 60 * 1000) ->
  let s' := loadMores env os (search env o (hk, st)) in
  snd s' = st
  /\ hk_hotels (fst s') = firstn (12 * (1 + List.length os)) hs
  /\ hk_total (fst s') = Z.of_nat (List.length hs)
  /\ (hk_hasMore (fst s') = true
      <-> (12 * (1 + List.length os) < List.length hs)%nat).
Proof.
  intros Hlive Hc Hslot Hne Hclock s'.
  destruct (getCityCode (f_location (hk_filters hk))) as [c|] eqn:Hc1;
    [|congruence].
  assert (Hkey : key_eqb (getCacheKey (hk_filters hk))
                         (getCacheKey (hk_filters hk)) = true).
  { unfold key_eqb. rewrite !String.eqb_refl.
    assert (Ro : forall a, Num.opt_eqb a a = true).
    { intros [x|]; [|reflexivity]. cbn. apply Qeq_bool_iff. reflexivity. }
    assert (Rs : forall l, strings_eqb l l = true).
    { induction l as [|x l IH]; [reflexivity|].
      cbn. now rewrite String.eqb_refl. }
    now rewrite !Ro, Rs. }
  assert (Hsrc : forall o' p, In o' (o :: os) ->
             searchHotels env o' (hk_filters hk) p st = (paginate hs p, st)).
  { intros o' p Ho'.
    assert (Hv : isCacheValid (now_cache o') (hk_filters hk) st = true).
    { unfold isCacheValid. rewrite Hslot. cbn [key c_hotels timestamp ttl].
      rewrite Hkey. destruct hs; [congruence|].
      apply andb_true_iff. split; [reflexivity|].
      apply Z.ltb_lt. now apply Hclock. }
    rewrite (live_hit env o' (hk_filters hk) p st c Hlive Hc1 Hv).
    now rewrite Hslot. }
  subst s'. unfold search. rewrite (Hsrc o 1 (or_introl eq_refl)).
  destruct (first_page_state hs) as [H1 H2].
  match goal with
  | |- context [loadMores env os (?h, st)] =>
      destruct (loadMores_accumulate env hs st os h 0) as (A & B & C & D & _)
  end; cbn [hk_filters hk_loading hk_hotels hk_hasMore hk_page hk_total];
    try assumption; try reflexivity.
  { intros o' p Ho' _. apply Hsrc. now right. }
  cbn [hk_total] in D. rewrite Nat.add_0_r in B, C.
  split; [exact A|]. split; [exact B|]. split; [exact D|].
  rewrite C, Z.ltb_lt. lia.
Qed.

Lemma search_state (env : Env) (o : Oracle) (hk : HookState) (st : State) :
  snd (search env o (hk, st)) = snd (searchHotels env o (hk_filters hk) 1 st).
Proof.
  unfold search. now destruct (searchHotels env o (hk_filters hk) 1 st).
Qed.

(** X22: [updateFilters] and [reset] invalidate the cache whatever they
    are given, an empty patch included: the hook shows no hotels and is back
    on page 1, no filters and no clock make the slot valid, and in live mode
    the next [search] of a resolved location sends a request even if the
    same search was cached a moment before. *)
Theorem hook_updates_invalidate (env : Env) (o : Oracle)
  (patch : PartialFilters) (hk : HookState) (st : State) :
  let after_update := updateFilters patch (hk, st) in
  let after_reset := reset patch (hk, st) in
  (hk_hotels (fst after_update) = [] /\ hk_page (fst after_update) = 1
   /\ hk_filters (fst after_update) = mergeFilters (hk_filters hk) patch)
  /\ (hk_hotels (fst after_reset) = [] /\ hk_page (fst after_reset) = 1
      /\ hk_filters (fst after_reset) = mergeFilters initialFilters patch)
  /\ (forall now f, isCacheValid now f (snd after_update) = false
                    /\ isCacheValid now f (snd after_reset) = false)
  /\ (shouldUseMockData env = false ->
      getCityCode (f_location (hk_filters (fst after_update))) <> None ->
      (sent st < sent (snd (search env o after_update)))%nat)
  /\ (shouldUseMockData env = false ->
      getCityCode (f_location (hk_filters (fst after_reset))) <> None ->
      (sent st < sent (snd (search env o after_reset)))%nat).
Proof.
  cbv zeta.
  split; [now repeat split|]. split; [now repeat split|].
  split; [intros now f; split; reflexivity|].
  assert (V : forall now f, isCacheValid now f (clearSearchCache st) = false)
    by reflexivity.
  split; intros Hlive Hc.
  - unfold updateFilters in *. cbn [fst hk_filters] in Hc.
    destruct (getCityCode (f_location (mergeFilters (hk_filters hk) patch)))
      as [c|] eqn:Hc1; [|congruence].
    rewrite search_state. cbn [hk_filters].
    exact (live_miss_sends env o _ 1 (clearSearchCache st) c Hlive Hc1 (V _ _)).
  - unfold reset, useHotelSearch in *. cbn [fst snd hk_filters] in *.
    destruct (getCityCode (f_location (mergeFilters initialFilters patch)))
      as [c|] eqn:Hc1; [|congruence].
    rewrite search_state. cbn [hk_filters].
    exact (live_miss_sends env o _ 1 (clearSearchCache st) c Hlive Hc1 (V _ _)).
Qed.

Lemma hook_updates_invalidate_witness :
  let empty := {| p_location := None; p_checkIn := None; p_checkOut := None;
                  p_guests := None; p_minPrice := None; p_maxPrice := None;
                  p_rating := None; p_amenities := None; p_sortBy := None |} in
  let s1 := search liveEnv
              (sampleOracle 1000 [remoteHotel "H1"; remoteHotel "H2"])
              (useHotelSearch empty, initialState) in
  (sent (snd s1)
   < sent (snd (search liveEnv (sampleOracle 2000 [])
                       (updateFilters empty s1))))%nat.
Proof.
  cbv zeta.
  match goal with
  | |- (sent (snd ?s) < sent (snd (search ?e ?o (updateFilters ?p ?s))))%nat =>
      destruct (hook_updates_invalidate e o p (fst s) (snd s))
        as (_ & _ & _ & H & _)
  end.
  apply H; [reflexivity | discriminate].
Defined.

Lemma hook_pages_from_cache_witness :
  let hk := useHotelSearch
              {| p_location := Some (Some "paris"); p_checkIn := None;
                 p_checkOut := None; p_guests := None; p_minPrice := None;
                 p_maxPrice := None; p_rating := None; p_amenities := None;
                 p_sortBy := None |} in
  let st1 := snd (search liveEnv
                    (sampleOracle 1000 [remoteHotel "H1"; remoteHotel "H2"])
                    (hk, initialState)) in
  snd (loadMores liveEnv [sampleOracle 3000 []; sampleOracle 4000 []]
         (search liveEnv (sampleOracle 2000 []) (hk, st1))) = st1.
Proof.
  cbv zeta.
  match goal with
  | |- snd (loadMores ?e ?os (search ?e ?o (?h, ?s))) = _ =>
      edestruct (hook_pages_from_cache e o os h s) as (H & _)
  end.
  - reflexivity.
  - discriminate.
  - reflexivity.
  - discriminate.
  - intros o' [<-|[<-|[<-|[]]]]; vm_compute; reflexivity.
  - exact H.
Defined.

(** ** Filters that restrict nothing *)

Lemma lower_white (c : ascii) : Str.isWhite (Str.lowerChar c) = Str.isWhite c.
Proof.
  destruct c as [[] [] [] [] [] [] [] []]; reflexivity.
Qed.

Lemma lower_trimStart (s : string) :
  Str.trimStart (Str.toLowerCase s) = Str.toLowerCase (Str.trimStart s).
Proof.
  unfold Str.toLowerCase. induction s as [|c s IH]; [reflexivity|].
  cbn [Str.map Str.trimStart]. rewrite lower_white.
  now destruct (Str.isWhite c).
Qed.

Lemma lower_rev_append (s acc : string) :
  Str.rev_append (Str.toLowerCase s) (Str.toLowerCase acc)
  = Str.toLowerCase (Str.rev_append s acc).
Proof.
  unfold Str.toLowerCase. revert acc.
  induction s as [|c s IH]; intros acc; [reflexivity|].
  cbn [Str.map Str.rev_append]. apply (IH (String c acc)).
Qed.

(** Lower-casing and trimming commute. *)
Lemma lower_trim (s : string) :
  Str.trim (Str.toLowerCase s) = Str.toLowerCase (Str.trim s).
Proof.
  assert (R : forall x, Str.rev (Str.toLowerCase x) = Str.toLowerCase (Str.rev x))
    by (intros x; exact (lower_rev_append x "")).
  unfold Str.trim, Str.trimEnd.
  now rewrite lower_trimStart, R, lower_trimStart, R.
Qed.

Lemma includes_empty (s : string) : Str.includes s "" = true.
Proof. destruct s; reflexivity. Qed.

(** X23: filters that restrict nothing return the list as it is, and
    filtering is idempotent.  With a location that is absent, empty or made
    of white space only, bounds that are absent or zero and an amenities
    list that is absent or empty, [filterHotels] returns every hotel in
    input order; and for any filters, filtering a filtered list again
    changes nothing. *)
Theorem filterHotels_neutral (hs : list Hotel) (f : SearchFilters) :
  filterHotels (filterHotels hs f) f = filterHotels hs f
  /\ ((forall loc, f_location f = Some loc -> Str.trim loc = ""%string) ->
      (forall m, minPrice f = Some m -> (m == 0)%Q) ->
      (forall m, maxPrice f = Some m -> (m == 0)%Q) ->
      (forall r, f_rating f = Some r -> (r == 0)%Q) ->
      (forall req, f_amenities f = Some req -> req = []) ->
      filterHotels hs f = hs).
Proof.
  split.
  - unfold filterHotels. induction hs as [|h hs IH]; [reflexivity|].
    cbn [filter]. destruct (keepHotel f h) eqn:K; [|exact IH].
    cbn [filter]. now rewrite K, IH.
  - intros Hloc Hmin Hmax Hr Ha. unfold filterHotels.
    apply forallb_filter_id. apply forallb_forall. intros h _.
    apply keepHotel_spec. unfold Passes.
    repeat match goal with |- _ /\ _ => split end.
    + intros loc E _. left. apply includes_spec.
      rewrite lower_trim, (Hloc loc E). apply includes_empty.
    + intros m E N. elim N. now apply Hmin.
    + intros m E N. elim N. now apply Hmax.
    + intros r E N. elim N. now apply Hr.
    + intros req E N. elim N. now apply Ha.
Qed.

Lemma filterHotels_neutral_witness :
  filterHotels [h300; h100; h200]
    {| f_location := Some "   "; checkIn := None; checkOut := None;
       guests := Some 2%Q; minPrice := Some 0%Q; maxPrice := None;
       f_rating := None; f_amenities := Some []; sortBy := None |}
  = [h300; h100; h200].
Proof.
  match goal with
  | |- filterHotels ?hs ?f = _ =>
      destruct (filterHotels_neutral hs f) as [_ H]
  end.
  apply H; cbn [f_location minPrice maxPrice f_rating f_amenities].
  - intros loc E. inversion E. reflexivity.
  - intros m E. inversion E. reflexivity.
  - discriminate.
  - discriminate.
  - intros req E. now inversion E.
Defined.
